(** * mouthy-bird: the face-signal module [src/face.js]

    A shallow embedding of the signal pipeline of [face.js]: landmark
    geometry, the two normalised control signals, the debounced game reset,
    the settings record mirrored to local storage, and the detection timer.

    JavaScript numbers are IEEE 754 binary64 values.  They are modelled by
    the specification floats of the standard library ([spec_float] with
    precision 53 and maximal exponent 1024), whose operations are ordinary
    executable functions, so that every signal can be evaluated on concrete
    landmarks. *)

From Stdlib Require Import ZArith List Bool Lia.
From Stdlib Require Import Floats.SpecFloat.
From stdpp Require Import gmap strings list fin_maps.

Set Default Proof Using "Type".
Local Open Scope Z_scope.

(* ===================================================================== *)
(** * Part I: definitions                                                 *)
(* ===================================================================== *)

(** ** JavaScript numbers and the [Math] built-ins used by the module *)

Module JS.

Definition number : Type := spec_float.

Definition prec : Z := 53.
Definition emax : Z := 1024.

Definition NaN : number := S754_nan.
Definition pos_zero : number := S754_zero false.
Definition neg_zero : number := S754_zero true.
Definition pos_infinity : number := S754_infinity false.
Definition neg_infinity : number := S754_infinity true.

(** An integer literal of the source text. *)
Definition of_Z (z : Z) : number := binary_normalize prec emax z 0 false.

(** A length or an index as a number. *)
Definition of_nat (n : nat) : number := of_Z (Z.of_nat n).

Definition add : number -> number -> number := SFadd prec emax.
Definition sub : number -> number -> number := SFsub prec emax.
Definition mul : number -> number -> number := SFmul prec emax.
Definition div : number -> number -> number := SFdiv prec emax.

(** [a < b] and [a > b]; both are false as soon as an operand is NaN. *)
Definition lt (a b : number) : bool := SFltb a b.
Definition gt (a b : number) : bool := SFltb b a.
Definition le (a b : number) : bool := SFleb a b.

Definition is_nan (a : number) : bool :=
  match a with S754_nan => true | _ => false end.

(** The decimal literal [0.7]: the binary64 value nearest to 7/10, which
    is what the correctly rounded quotient of 7 by 10 computes. *)
Definition lit_0_7 : number := Eval vm_compute in div (of_Z 7) (of_Z 10).

(** The decimal literal [0.5], exactly 1/2. *)
Definition lit_0_5 : number := Eval vm_compute in div (of_Z 1) (of_Z 2).

(** [Math.abs] and [Math.sqrt]. *)
Definition Math_abs : number -> number := SFabs.
Definition Math_sqrt : number -> number := SFsqrt prec emax.

(** [Math.max(...args)] folds over its arguments from -Infinity: a NaN
    argument makes the result NaN, +0 beats -0, and otherwise the larger
    value is kept. *)
Definition max_step (highest : number) (x : number) : number :=
  match highest, x with
  | S754_nan, _ => S754_nan
  | _, S754_nan => S754_nan
  | S754_zero true, S754_zero false => S754_zero false
  | _, _ => if gt x highest then x else highest
  end.

Definition Math_max (args : list number) : number :=
  fold_left max_step args neg_infinity.

(** [Math.min(...args)], dually, from +Infinity; -0 beats +0. *)
Definition min_step (lowest : number) (x : number) : number :=
  match lowest, x with
  | S754_nan, _ => S754_nan
  | _, S754_nan => S754_nan
  | S754_zero false, S754_zero true => S754_zero true
  | _, _ => if lt x lowest then x else lowest
  end.

Definition Math_min (args : list number) : number :=
  fold_left min_step args pos_infinity.

(** Exceptions the module can raise. *)
Inductive exn : Type :=
| TypeError
| SyntaxError.

(** The outcome of evaluating an expression that may throw. *)
Inductive result (A : Type) : Type :=
| Ok (a : A)
| Throw (e : exn).
Arguments Ok {A} a.
Arguments Throw {A} e.

End JS.

Export JS.

(** ** Landmarks *)

(** A landmark point of the detector. *)
Record point : Type := Point { x : number; y : number }.

(** Reading [p.x] and [p.y] of an array element that may be [undefined]:
    a property read on [undefined] throws a TypeError. *)
Definition get_x (p : option point) : result number :=
  match p with Some q => Ok (x q) | None => Throw TypeError end.

Definition get_y (p : option point) : result number :=
  match p with Some q => Ok (y q) | None => Throw TypeError end.

(** ** Settings *)

(** The settings record as the signal code reads it. *)
Record settings : Type := Settings {
  inputSize : number;
  detectionInterval : number;
  scoreThreshold : number;
  eyebrowThresholdFloor : number;
  eyebrowThresholdCeil : number;
  mouthThresholdFloor : number;
  mouthThresholdCeil : number;
  pitchFloor : number;
  pitchCeil : number;
  model : string;
  showLandmarks : bool;
  showGraphics : bool
}.

(** The [defaultSettings] literal. *)
Definition defaultSettings : settings := {|
  inputSize := of_Z 256;
  detectionInterval := of_Z 20;
  scoreThreshold := lit_0_5;
  eyebrowThresholdFloor := of_Z 18;
  eyebrowThresholdCeil := of_Z 25;
  mouthThresholdFloor := of_Z 10;
  mouthThresholdCeil := of_Z 39;
  pitchFloor := of_Z 20;
  pitchCeil := of_Z 400;
  model := "tinyFaceDetector";
  showLandmarks := false;
  showGraphics := true
|}.

(** ** Signal extraction *)

(** [euclideanDistance(point1, point2)].  The arguments are array elements
    and may be [undefined]; the reads happen in source order. *)
Definition euclideanDistance (point1 point2 : option point) : result number :=
  match get_x point1 with
  | Throw e => Throw e
  | Ok x1 =>
    match get_x point2 with
    | Throw e => Throw e
    | Ok x2 =>
      let dx := sub x1 x2 in
      match get_y point1 with
      | Throw e => Throw e
      | Ok y1 =>
        match get_y point2 with
        | Throw e => Throw e
        | Ok y2 =>
          let dy := sub y1 y2 in
          Ok (Math_sqrt (add (mul dx dx) (mul dy dy)))
        end
      end
    end
  end.

(** The callback of [eyebrow.map]: the vertical distance to the eye point
    of the same index, or 0 when [eye[index]] is [undefined]. *)
Definition verticalDistance (eye : list point) (index : nat) (pt : point) : number :=
  match eye !! index with
  | Some q => Math_abs (sub (y pt) (y q))
  | None => of_Z 0
  end.

(** [calculateEyebrowRaise(eyebrow, eye)]. *)
Definition calculateEyebrowRaise (s : settings) (eyebrow eye : list point) : number :=
  let verticalDistances := imap (verticalDistance eye) eyebrow in
  let averageDistance :=
    div (fold_left (fun sum dist => add sum dist) verticalDistances (of_Z 0))
        (of_nat (length verticalDistances)) in
  let normalizedValue :=
    div (sub averageDistance (eyebrowThresholdFloor s))
        (sub (eyebrowThresholdCeil s) (eyebrowThresholdFloor s)) in
  Math_max [pos_zero; Math_min [of_Z 1; normalizedValue]].

(** [calculateMouthOpen(mouth)]. *)
Definition calculateMouthOpen (s : settings) (mouth : list point) : result number :=
  match euclideanDistance (mouth !! 3%nat) (mouth !! 9%nat) with
  | Throw e => Throw e
  | Ok verticalDistance =>
    let normalizedValue :=
      div (sub verticalDistance (mouthThresholdFloor s))
          (sub (mouthThresholdCeil s) (mouthThresholdFloor s)) in
    Ok (Math_max [pos_zero; Math_min [of_Z 1; normalizedValue]])
  end.

(** ** The detection tick *)

(** The landmark arrays the detector yields for one face. *)
Record face : Type := Face {
  getLeftEye : list point;
  getRightEye : list point;
  getLeftEyeBrow : list point;
  getRightEyeBrow : list point;
  getMouth : list point
}.

(** What the tick reads from its surroundings while it handles one face:
    the value of [Date.now()] and the answer of [isGameRunning()].  Time
    values are integral numbers far below 2^53, so they are kept as
    integers. *)
Record sample : Type := Sample {
  detection : face;
  clock : Z;
  gameRunning : bool
}.

(** The calls the tick makes on its collaborators.  [ResetGame] carries the
    [currentTime] read just before the call. *)
Inductive event : Type :=
| ClearRect
| DrawOverlays
| ResetGame (currentTime : Z)
| DrawCircle (cx cy radius : number) (color : string) (alpha : number)
| DrawDiamond (cx cy size : number) (color : string) (alpha : number)
| ConsoleLog (msg : string).

(** The module-level variables the tick writes, and the calls made so far
    (oldest first). *)
Record store : Type := Store {
  leftEyebrowRaise : number;
  mouthOpen : number;
  lastResetTime : Z;
  calls : list event
}.

(** The module's initial variables. *)
Definition initial_store : store :=
  {| leftEyebrowRaise := of_Z 0; mouthOpen := of_Z 0; lastResetTime := 0; calls := [] |}.

(** Statements: they transform the store and complete or throw. *)
Definition M (A : Type) : Type := store -> store * result A.

Definition ret {A} (a : A) : M A := fun st => (st, Ok a).

Definition bind {A B} (m : M A) (k : A -> M B) : M B :=
  fun st =>
    match m st with
    | (st', Ok a) => k a st'
    | (st', Throw e) => (st', Throw e)
    end.

Declare Scope js_scope.
Delimit Scope js_scope with js.
Bind Scope js_scope with M.
Notation "p <- m ;; k" := (bind m (fun p => k))
  (at level 100, m at next level, k at level 200, right associativity) : js_scope.
Notation "m ;; k" := (bind m (fun _ => k))
  (at level 100, k at level 200, right associativity) : js_scope.
Local Open Scope js_scope.

Definition eval {A} (r : result A) : M A := fun st => (st, r).

Definition call (e : event) : M unit :=
  fun st => ({| leftEyebrowRaise := leftEyebrowRaise st; mouthOpen := mouthOpen st;
                lastResetTime := lastResetTime st; calls := calls st ++ [e] |}, Ok tt).

Definition set_leftEyebrowRaise (v : number) : M unit :=
  fun st => ({| leftEyebrowRaise := v; mouthOpen := mouthOpen st;
                lastResetTime := lastResetTime st; calls := calls st |}, Ok tt).

Definition set_mouthOpen (v : number) : M unit :=
  fun st => ({| leftEyebrowRaise := leftEyebrowRaise st; mouthOpen := v;
                lastResetTime := lastResetTime st; calls := calls st |}, Ok tt).

Definition set_lastResetTime (t : Z) : M unit :=
  fun st => ({| leftEyebrowRaise := leftEyebrowRaise st; mouthOpen := mouthOpen st;
                lastResetTime := t; calls := calls st |}, Ok tt).

Definition read {A} (f : store -> A) : M A := fun st => (st, Ok (f st)).

Definition when (b : bool) (m : M unit) : M unit := if b then m else ret tt.

(** [(a + b) / 2] on two coordinates. *)
Definition midpoint (a b : number) : number := div (add a b) (of_Z 2).

(** The body of the [for] loop of [detectFaces] for one detected face. *)
Definition detectFace (s : settings) (o : sample) : M unit :=
  let leftEye := getLeftEye (detection o) in
  let rightEye := getRightEye (detection o) in
  let leftEyebrow := getLeftEyeBrow (detection o) in
  let rightEyebrow := getRightEyeBrow (detection o) in
  let mouth := getMouth (detection o) in
  if (length leftEye =? 6)%nat && (length rightEye =? 6)%nat then
    set_leftEyebrowRaise (calculateEyebrowRaise s leftEyebrow leftEye) ;;
    let rightEyebrowRaise := calculateEyebrowRaise s rightEyebrow rightEye in
    let currentTime := clock o in
    raise <- read leftEyebrowRaise ;;
    last <- read lastResetTime ;;
    when (negb (gameRunning o) && gt raise lit_0_7 && (3000 <? currentTime - last))
         (call (ResetGame currentTime) ;;
          set_lastResetTime currentTime) ;;
    when (showGraphics s)
      (when (gt raise (of_Z 0))
         (x0 <- eval (get_x (leftEye !! 0%nat)) ;;
          x3 <- eval (get_x (leftEye !! 3%nat)) ;;
          y1 <- eval (get_y (leftEye !! 1%nat)) ;;
          y5 <- eval (get_y (leftEye !! 5%nat)) ;;
          call (DrawCircle (midpoint x0 x3) (midpoint y1 y5) (of_Z 5) "blue" raise)) ;;
       when (gt rightEyebrowRaise (of_Z 0))
         (x0 <- eval (get_x (rightEye !! 0%nat)) ;;
          x3 <- eval (get_x (rightEye !! 3%nat)) ;;
          y1 <- eval (get_y (rightEye !! 1%nat)) ;;
          y5 <- eval (get_y (rightEye !! 5%nat)) ;;
          call (DrawCircle (midpoint x0 x3) (midpoint y1 y5) (of_Z 5) "blue"
                           rightEyebrowRaise)) ;;
       m <- eval (calculateMouthOpen s mouth) ;;
       set_mouthOpen m ;;
       when (gt m (of_Z 0))
         (x0 <- eval (get_x (leftEye !! 0%nat)) ;;
          x3 <- eval (get_x (rightEye !! 3%nat)) ;;
          yl <- eval (get_y (leftEyebrow !! 2%nat)) ;;
          yr <- eval (get_y (rightEyebrow !! 2%nat)) ;;
          call (DrawDiamond (midpoint x0 x3) (sub (midpoint yl yr) (of_Z 20))
                            (of_Z 10) "blue" m)))
  else
    call (ConsoleLog "Error: Eye landmarks not detected correctly.").

(** The [for ... of] loop: an exception leaves the loop. *)
Fixpoint forEach {A} (body : A -> M unit) (l : list A) : M unit :=
  match l with
  | [] => ret tt
  | a :: l' => body a ;; forEach body l'
  end.

(** The part of [detectFaces] that runs once the detector has answered
    with [detections] (already resized by the library). *)
Definition detectFaces (s : settings) (detections : list sample) : M unit :=
  call ClearRect ;;
  when (showLandmarks s) (call DrawOverlays) ;;
  forEach (detectFace s) detections.

(** [getMouthOpen()] and [getBrows()]. *)
Definition getMouthOpen (st : store) : number := mouthOpen st.
Definition getBrows (st : store) : number := leftEyebrowRaise st.

(** ** Settings persistence *)

(** The values a settings record holds: what [JSON.parse] produces for the
    members of a flat record and what the settings panel writes. *)
Inductive jsval : Type :=
| VNull
| VBool (b : bool)
| VNum (n : number)
| VStr (s : string).

(** A record: its keys and their values. *)
Abbreviation object := (gmap string jsval).

(** What a JSON text denotes: a scalar, or a flat record. *)
Inductive document : Type :=
| DScalar (v : jsval)
| DRecord (o : object).

(** A string kept in local storage, by what [JSON.parse] makes of it: the
    empty string, a string that is not JSON, or a JSON text, which is
    identified with the document it denotes. *)
Inductive text : Type :=
| EmptyText
| Malformed
| Json (d : document).

(** [JSON.parse(t)]. *)
Definition JSON_parse (t : text) : result document :=
  match t with
  | Json d => Ok d
  | EmptyText | Malformed => Throw SyntaxError
  end.

(** How [JSON.stringify] writes a member value: NaN and the infinities are
    written [null], and -0 is written [0]. *)
Definition serialize (v : jsval) : jsval :=
  match v with
  | VNum S754_nan => VNull
  | VNum (S754_infinity _) => VNull
  | VNum (S754_zero _) => VNum pos_zero
  | _ => v
  end.

(** [JSON.stringify(o)] for a record. *)
Definition JSON_stringify (o : object) : text :=
  Json (DRecord (serialize <$> o)).

(** Truthiness of a string: only the empty string is falsy. *)
Definition truthy (t : text) : bool :=
  match t with
  | EmptyText => false
  | Malformed | Json _ => true
  end.

(** The members of a settings record, in declaration order. *)
Definition entries (s : settings) : list (string * jsval) :=
  [ ("inputSize", VNum (inputSize s));
    ("detectionInterval", VNum (detectionInterval s));
    ("scoreThreshold", VNum (scoreThreshold s));
    ("eyebrowThresholdFloor", VNum (eyebrowThresholdFloor s));
    ("eyebrowThresholdCeil", VNum (eyebrowThresholdCeil s));
    ("mouthThresholdFloor", VNum (mouthThresholdFloor s));
    ("mouthThresholdCeil", VNum (mouthThresholdCeil s));
    ("pitchFloor", VNum (pitchFloor s));
    ("pitchCeil", VNum (pitchCeil s));
    ("model", VStr (model s));
    ("showLandmarks", VBool (showLandmarks s));
    ("showGraphics", VBool (showGraphics s)) ]%string.

(** The record with these members. *)
Definition object_of (s : settings) : object := list_to_map (entries s).

(** The keys enumerated by [for (const key in defaultSettings)]. *)
Definition defaultKeys : list string := (entries defaultSettings).*1.

(** One iteration of the [for ... in] loop of [loadSettings]. *)
Definition fillDefault (acc : object) (kv : string * jsval) : object :=
  match acc !! kv.1 with
  | Some _ => acc
  | None => <[kv.1 := kv.2]> acc
  end.

(** [loadSettings()], from the stored item ([None] when there is none).
    The [in] operator throws a TypeError on a value that is not an object. *)
Definition loadSettings (savedSettings : option text) : result object :=
  let parsed :=
    match savedSettings with
    | Some t => if truthy t then JSON_parse t
                else Ok (DRecord (object_of defaultSettings))
    | None => Ok (DRecord (object_of defaultSettings))
    end in
  match parsed with
  | Throw e => Throw e
  | Ok (DScalar _) => Throw TypeError
  | Ok (DRecord o) => Ok (fold_left fillDefault (entries defaultSettings) o)
  end.

(** [saveSettings(settings)]: the stored item afterwards. *)
Definition saveSettings (o : object) : option text := Some (JSON_stringify o).

(** ** The detection timer *)

(** The state the timer code works on: the current settings, the variable
    [intervalId], the intervals installed and not yet cleared, the next id
    [setInterval] hands out, the number of [detectFaces] calls waiting for
    the detector to answer, and the module variables. *)
Record browser : Type := Browser {
  current : settings;
  intervalId : option nat;
  active : list nat;
  fresh : nat;
  pending : nat;
  vars : store
}.

(** [clearInterval(id)]; clearing [undefined] does nothing. *)
Definition clearInterval (id : option nat) (timers : list nat) : list nat :=
  match id with
  | Some i => filter (fun j => j ≠ i) timers
  | None => timers
  end.

(** [onPlay(videoEl)]. *)
Definition onPlay (b : browser) : browser :=
  {| current := current b;
     intervalId := Some (fresh b);
     active := fresh b :: clearInterval (intervalId b) (active b);
     fresh := S (fresh b);
     pending := pending b;
     vars := vars b |}.

(** What can happen next: the video starts playing, the panel changes a
    setting, an installed interval fires, or the detector answers one of
    the waiting calls. *)
Inductive action : Type :=
| Play
| GuiChange (s : settings)
| Fire (id : nat)
| Answer (detections : list sample).

(** One turn of the event loop; [None] when the action cannot happen in
    this state.  The interval callback starts [detectFaces], which waits
    for the detector; the rest of [detectFaces] runs, uninterrupted, when
    the detector answers. *)
Definition step (b : browser) (a : action) : option browser :=
  match a with
  | Play => Some (onPlay b)
  | GuiChange s =>
      Some (onPlay {| current := s; intervalId := intervalId b; active := active b;
                      fresh := fresh b; pending := pending b; vars := vars b |})
  | Fire id =>
      if bool_decide (id ∈ active b)
      then Some {| current := current b; intervalId := intervalId b; active := active b;
                   fresh := fresh b; pending := S (pending b); vars := vars b |}
      else None
  | Answer detections =>
      match pending b with
      | O => None
      | S n =>
          Some {| current := current b; intervalId := intervalId b; active := active b;
                  fresh := fresh b; pending := n;
                  vars := (detectFaces (current b) detections (vars b)).1 |}
      end
  end.

(** A run of the event loop. *)
Fixpoint run (b : browser) (l : list action) : option browser :=
  match l with
  | [] => Some b
  | a :: l' =>
      match step b a with
      | Some b' => run b' l'
      | None => None
      end
  end.

(** The page after [init] has loaded the models, with settings [s]. *)
Definition start (s : settings) : browser :=
  {| current := s; intervalId := None; active := []; fresh := 0%nat; pending := 0%nat;
     vars := initial_store |}.

(** ** Reference definitions, in the words of the specification *)

(** The clamp of a value to the interval [0,1]. *)
Definition clamp01 (v : number) : number :=
  if le v pos_zero then pos_zero
  else if le (of_Z 1) v then of_Z 1
  else v.

(** The same clamp written with strict comparisons. *)
Definition clampStrict (v : number) : number :=
  if lt v pos_zero then pos_zero
  else if lt (of_Z 1) v then of_Z 1
  else v.

(** The vertical distances between eyebrow points and the eye points of the
    same index, 0 where the eye has no such point. *)
Fixpoint distances (eyebrow eye : list point) : list number :=
  match eyebrow with
  | [] => []
  | p :: ps =>
      match eye with
      | q :: qs => Math_abs (sub (y p) (y q)) :: distances ps qs
      | [] => of_Z 0 :: distances ps []
      end
  end.

(** The sum of a list, taken in index order from 0. *)
Fixpoint total_from (acc : number) (l : list number) : number :=
  match l with
  | [] => acc
  | d :: l' => total_from (add acc d) l'
  end.

(** The mean of a list of numbers. *)
Definition mean (l : list number) : number :=
  div (total_from (of_Z 0) l) (of_nat (length l)).

(** The distance between two points of the plane. *)
Definition distance (p q : point) : number :=
  Math_sqrt (add (mul (sub (x p) (x q)) (sub (x p) (x q)))
                 (mul (sub (y p) (y q)) (sub (y p) (y q)))).

(** The normalisation of a distance [d] between a floor and a ceiling. *)
Definition normalize (floor ceil d : number) : number :=
  clamp01 (div (sub d floor) (sub ceil floor)).

(** ** Notions used to state the properties *)

(** A value in the closed interval [0,1]. *)
Definition in_unit_interval (v : number) : Prop :=
  le pos_zero v = true /\ le v (of_Z 1) = true.

(** The eye landmarks of a face are well formed: six points each. *)
Definition wellFormed (f : face) : bool :=
  (length (getLeftEye f) =? 6)%nat && (length (getRightEye f) =? 6)%nat.

(** The times at which [resetGame] was called, oldest first. *)
Fixpoint resets (l : list event) : list Z :=
  match l with
  | [] => []
  | ResetGame t :: l' => t :: resets l'
  | _ :: l' => resets l'
  end.

(** The calls a statement adds when run from [st]. *)
Definition emitted {A} (m : M A) (st : store) : list event :=
  drop (length (calls st)) (calls (m st).1).

(** Every later time of the list is more than 3000 after every earlier one. *)
Fixpoint spaced (l : list Z) : Prop :=
  match l with
  | [] => True
  | t :: l' => Forall (fun u => 3000 < u - t) l' /\ spaced l'
  end.

(** The left eyebrow signal after a tick that does not throw before its
    end: that of the last face with well-formed eyes, if any. *)
Definition lastBrows (s : settings) (detections : list sample) (before : number) : number :=
  fold_left (fun acc o =>
               if wellFormed (detection o)
               then calculateEyebrowRaise s (getLeftEyeBrow (detection o))
                                            (getLeftEye (detection o))
               else acc)
            detections before.

(** A statement leaves an observation [f] of the store unchanged, whether
    it completes or throws. *)
Definition keeps {A X} (f : store -> X) (m : M A) : Prop :=
  forall st, f (m st).1 = f st.

(** A statement maintains a property of the store. *)
Definition preserves {A} (P : store -> Prop) (m : M A) : Prop :=
  forall st, P st -> P (m st).1.

(** A statement only adds calls. *)
Definition grows {A} (m : M A) : Prop :=
  forall st, exists new, calls (m st).1 = calls st ++ new.

(** What the debounce depends on: [lastResetTime] and the reset times. *)
Definition debounceView (st : store) : Z * list Z :=
  (lastResetTime st, resets (calls st)).

(** The condition under which the tick calls [resetGame] for a face with
    well-formed eyes, from the store before that face is handled. *)
Definition resetCondition (s : settings) (o : sample) (st : store) : bool :=
  negb (gameRunning o)
  && gt (calculateEyebrowRaise s (getLeftEyeBrow (detection o)) (getLeftEye (detection o)))
        lit_0_7
  && (3000 <? clock o - lastResetTime st).

(** The reset times are spaced and none is later than [lastResetTime]. *)
Definition debounced (v : Z * list Z) : Prop :=
  spaced v.2 /\ Forall (fun t => t <= v.1) v.2.

(** The installed intervals are exactly the one recorded in [intervalId],
    if any. *)
Definition singleInterval (b : browser) : Prop :=
  active b = match intervalId b with Some i => [i] | None => [] end.

(** At any time of any run at most one detection interval is installed. *)
Definition oneIntervalAtATime : Prop :=
  forall (s : settings) (l : list action) (b : browser),
    run (start s) l = Some b -> (length (active b) <= 1)%nat.

(** No tick begins while an earlier tick has not finished: an interval
    fires only when no [detectFaces] call is waiting for the detector. *)
Definition ticksNeverOverlap : Prop :=
  forall (s : settings) (l : list action) (id : nat) (b b' : browser),
    run (start s) l = Some b -> step b (Fire id) = Some b' -> pending b = 0%nat.

(** The stored item for a persisted record, [None] when nothing was
    persisted. *)
Definition stored (persisted : option object) : option text :=
  (fun o => Json (DRecord o)) <$> persisted.

(** A record that has every key of [defaultSettings]. *)
Definition complete (o : object) : Prop :=
  forall k, k ∈ defaultKeys -> is_Some (o !! k).

(** A value that [JSON.stringify] and [JSON.parse] give back unchanged. *)
Definition representable (v : jsval) : bool :=
  match v with
  | VNum (S754_finite _ _ _) => true
  | VNum (S754_zero s) => negb s
  | VNum _ => false
  | _ => true
  end.

(** ** Sample inputs *)

(** A point with integer coordinates. *)
Definition pt (a b : Z) : point := Point (of_Z a) (of_Z b).

(** A face looking at the camera: five points per eyebrow at height
    [100 - raise], six points per eye at height 100, and twenty mouth
    points of which the upper ones are at height 120 and the lower ones
    at height [120 + gap]. *)
Definition faceWith (raise gap : Z) : face :=
  {| getLeftEye := map (fun i => pt (60 + i) 100) [0; 1; 2; 3; 4; 5];
     getRightEye := map (fun i => pt (30 + i) 100) [0; 1; 2; 3; 4; 5];
     getLeftEyeBrow := map (fun i => pt (60 + i) (100 - raise)) [0; 1; 2; 3; 4];
     getRightEyeBrow := map (fun i => pt (30 + i) (100 - raise)) [0; 1; 2; 3; 4];
     getMouth := replicate 9 (pt 50 120) ++ replicate 11 (pt 50 (120 + gap)) |}.

(** A face whose left eye has lost a point. *)
Definition brokenFace : face :=
  {| getLeftEye := map (fun i => pt (60 + i) 100) [0; 1; 2; 3; 4];
     getRightEye := getRightEye (faceWith 20 20);
     getLeftEyeBrow := getLeftEyeBrow (faceWith 20 20);
     getRightEyeBrow := getRightEyeBrow (faceWith 20 20);
     getMouth := getMouth (faceWith 20 20) |}.

(** The default settings after the panel has set both ceilings to the
    value of their floors. *)
Definition flatSettings : settings := {|
  inputSize := inputSize defaultSettings;
  detectionInterval := detectionInterval defaultSettings;
  scoreThreshold := scoreThreshold defaultSettings;
  eyebrowThresholdFloor := of_Z 18;
  eyebrowThresholdCeil := of_Z 18;
  mouthThresholdFloor := of_Z 10;
  mouthThresholdCeil := of_Z 10;
  pitchFloor := pitchFloor defaultSettings;
  pitchCeil := pitchCeil defaultSettings;
  model := model defaultSettings;
  showLandmarks := showLandmarks defaultSettings;
  showGraphics := showGraphics defaultSettings
|}.

(** The default settings with the graphics switched off. *)
Definition quietSettings : settings := {|
  inputSize := inputSize defaultSettings;
  detectionInterval := detectionInterval defaultSettings;
  scoreThreshold := scoreThreshold defaultSettings;
  eyebrowThresholdFloor := eyebrowThresholdFloor defaultSettings;
  eyebrowThresholdCeil := eyebrowThresholdCeil defaultSettings;
  mouthThresholdFloor := mouthThresholdFloor defaultSettings;
  mouthThresholdCeil := mouthThresholdCeil defaultSettings;
  pitchFloor := pitchFloor defaultSettings;
  pitchCeil := pitchCeil defaultSettings;
  model := model defaultSettings;
  showLandmarks := showLandmarks defaultSettings;
  showGraphics := false
|}.

(** A face with raised eyebrows and an open mouth, seen at time [t] while
    the game is not running. *)
Definition raisedSample (t : Z) : sample :=
  {| detection := faceWith 30 20; clock := t; gameRunning := false |}.

(** The same moment with a face whose left eye is malformed. *)
Definition brokenSample (t : Z) : sample :=
  {| detection := brokenFace; clock := t; gameRunning := false |}.

(** A run in which the eyebrows stay raised over three detection ticks. *)
Definition sampleRun : list action :=
  [ Play; Fire 0%nat; Answer [raisedSample 5000];
    Fire 0%nat; Answer [raisedSample 7000];
    Fire 0%nat; Answer [raisedSample 9000] ].

(** The default record in which the eyebrow ceiling has overflowed to
    Infinity, as [JSON.parse] reads the literal [1e999]. *)
Definition overflowSettings : object :=
  <["eyebrowThresholdCeil"%string := VNum pos_infinity]> (object_of defaultSettings).

(** A persisted record with only two members: a ceiling and an extra key. *)
Definition partialSettings : object :=
  <["eyebrowThresholdCeil"%string := VNum (of_Z 30)]>
    (<["volume"%string := VNum (of_Z 3)]> ∅).

(** ** Further notions: geometry *)

(** A number that is NaN or carries the sign +. *)
Definition unsigned (v : number) : Prop :=
  match v with
  | S754_nan => True
  | S754_zero sg | S754_infinity sg | S754_finite sg _ _ => sg = false
  end.

(** A number that is neither NaN nor infinite. *)
Definition finite (v : number) : bool :=
  match v with
  | S754_zero _ | S754_finite _ _ _ => true
  | S754_nan | S754_infinity _ => false
  end.

(** The heights of a list of points. *)
Definition heights (l : list point) : list number := map y l.

(** ** Further notions: the tick *)

(** The landmark arrays are long enough for every read of the tick: ten
    mouth points and three points per eyebrow. *)
Definition sized (f : face) : Prop :=
  (10 <= length (getMouth f))%nat /\
  (3 <= length (getLeftEyeBrow f))%nat /\
  (3 <= length (getRightEyeBrow f))%nat.

(** A statement completes, whatever the store. *)
Definition completes {A} (m : M A) : Prop :=
  forall st, exists a, (m st).2 = Ok a.




(** A signal value: NaN, or a number of [0,1]. *)
Definition signal (v : number) : Prop := v = NaN \/ in_unit_interval v.

(** Both exported signals are signal values. *)
Definition signalsOk (st : store) : Prop :=
  signal (getBrows st) /\ signal (getMouthOpen st).

(** The time of the most recent reset, 0 when there was none. *)
Definition lastReset (l : list event) : Z := default 0 (last (resets l)).

(** A statement throws [e], whatever the store. *)
Definition throws {A} (e : exn) (m : M A) : Prop :=
  forall st, (m st).2 = Throw e.

(** The two signals kept in the store. *)
Definition signalsOf (st : store) : number * number :=
  (leftEyebrowRaise st, mouthOpen st).

(** A face like [faceWith 30 20] whose mouth array stops after nine
    points. *)
Definition shortMouthFace : face :=
  {| getLeftEye := getLeftEye (faceWith 30 20);
     getRightEye := getRightEye (faceWith 30 20);
     getLeftEyeBrow := getLeftEyeBrow (faceWith 30 20);
     getRightEyeBrow := getRightEyeBrow (faceWith 30 20);
     getMouth := take 9 (getMouth (faceWith 30 20)) |}.

Definition shortMouthSample (t : Z) : sample :=
  {| detection := shortMouthFace; clock := t; gameRunning := false |}.

(** ** The settings panel: visibility *)

(** [toLowerCase] on a key name.  Key names are ASCII words or single
    characters; the upper-case letters A to Z are mapped to a to z and
    every other character is kept (no character outside ASCII has the
    lower case [c]). *)
Definition lowerChar (c : Ascii.ascii) : Ascii.ascii :=
  let n := Ascii.nat_of_ascii c in
  if ((65 <=? n) && (n <=? 90))%nat then Ascii.ascii_of_nat (n + 32) else c.

Fixpoint toLowerCase (k : string) : string :=
  match k with
  | EmptyString => EmptyString
  | String c k' => String (lowerChar c) (toLowerCase k')
  end.

(** The panel: the variable [guiVisible], whether the panel is shown
    ([gui.show()] / [gui.hide()]), and the item stored under
    [GUI_OPEN_KEY]. *)
Record panel : Type := Panel {
  guiVisible : bool;
  shown : bool;
  guiOpenState : option string
}.

(** The part of [initGUI] that restores the visibility from the stored
    item. *)
Definition initGUI (savedGUIOpenState : option string) : panel :=
  match savedGUIOpenState with
  | None =>
      {| guiVisible := false; shown := false; guiOpenState := savedGUIOpenState |}
  | Some v =>
      if String.eqb v "false"
      then {| guiVisible := false; shown := false; guiOpenState := savedGUIOpenState |}
      else {| guiVisible := true; shown := true; guiOpenState := savedGUIOpenState |}
  end.

(** The [keydown] listener. *)
Definition keydown (key : string) (p : panel) : panel :=
  if String.eqb (toLowerCase key) "c" then
    let v := negb (guiVisible p) in
    {| guiVisible := v; shown := v;
       guiOpenState := Some (if v then "true" else "false")%string |}
  else p.

(** The [click] listener of the panel; [closed] is the panel's folded
    state at that moment. *)
Definition click (closed : bool) (p : panel) : panel :=
  {| guiVisible := guiVisible p; shown := shown p;
     guiOpenState := Some (if negb closed then "true" else "false")%string |}.

(* ===================================================================== *)
(** * Part II: properties                                                 *)
(* ===================================================================== *)

(** ** Comparisons and the clamp *)

Lemma one_is : of_Z 1 = S754_finite false 4503599627370496 (-52).
Proof. reflexivity. Qed.

(** Comparing a positive finite value with 1, in both directions. *)
Lemma compare_one_antisym (m : positive) (e : Z) :
  SFcompare (of_Z 1) (S754_finite false m e) =
  option_map CompOpp (SFcompare (S754_finite false m e) (of_Z 1)).
Proof.
  rewrite one_is. cbn [SFcompare option_map].
  rewrite (Z.compare_antisym e (-52)).
  destruct (e ?= -52) eqn:He; cbn [CompOpp]; try reflexivity.
  rewrite (Pos.compare_cont_antisym _ _ Eq). cbn [CompOpp].
  destruct (Pos.compare_cont Eq m 4503599627370496); reflexivity.
Qed.

Lemma compare_one_defined (m : positive) (e : Z) :
  exists c, SFcompare (S754_finite false m e) (of_Z 1) = Some c.
Proof. rewrite one_is. cbn [SFcompare]. eexists. reflexivity. Qed.

(** [Math.max(0.0, Math.min(1.0, v))] is the clamp of [v] to [0,1]. *)
Lemma max_min_clamp (v : number) :
  Math_max [pos_zero; Math_min [of_Z 1; v]] = clamp01 v.
Proof.
  unfold Math_max, Math_min, clamp01.
  cbn [fold_left].
  change (min_step pos_infinity (of_Z 1)) with (of_Z 1).
  change (max_step neg_infinity pos_zero) with pos_zero.
  destruct v as [sg | sg | | sg m e].
  - destruct sg; reflexivity.
  - destruct sg; reflexivity.
  - reflexivity.
  - destruct sg; [reflexivity |].
    unfold min_step, max_step, pos_zero, le, lt, gt, SFleb, SFltb.
    rewrite compare_one_antisym.
    destruct (compare_one_defined m e) as [c Hc]. rewrite Hc.
    destruct c; reflexivity.
Qed.

(** The clamp of a value that is not NaN lies in [0,1]. *)
Lemma clamp01_range (v : number) :
  is_nan v = false -> in_unit_interval (clamp01 v).
Proof.
  intros Hv. unfold in_unit_interval, clamp01.
  destruct v as [sg | sg | | sg m e]; try discriminate Hv.
  - destruct sg; split; reflexivity.
  - destruct sg; split; reflexivity.
  - destruct sg; [split; reflexivity |].
    unfold le, SFleb, pos_zero.
    change (SFcompare (S754_finite false m e) (S754_zero false)) with (Some Gt).
    cbv iota. rewrite compare_one_antisym.
    destruct (compare_one_defined m e) as [c Hc]. rewrite Hc.
    destruct c; cbn [option_map CompOpp]; split; try reflexivity.
    rewrite Hc. reflexivity.
Qed.

(** The clamp of NaN is NaN. *)
Lemma clamp01_nan : clamp01 NaN = NaN.
Proof. reflexivity. Qed.

(** The clamp is NaN or lies in [0,1]. *)
Lemma clamp01_nan_or_range (v : number) :
  clamp01 v = NaN \/ in_unit_interval (clamp01 v).
Proof.
  destruct (is_nan v) eqn:Hv.
  - left. destruct v; try discriminate Hv. reflexivity.
  - right. apply clamp01_range, Hv.
Qed.

(** A positive finite value that compares equal to 1 is 1. *)
Lemma compare_one_eq (m : positive) (e : Z) :
  SFcompare (S754_finite false m e) (of_Z 1) = Some Eq ->
  S754_finite false m e = of_Z 1.
Proof.
  rewrite one_is. cbn [SFcompare]. intros H.
  destruct (e ?= -52) eqn:He; try discriminate H.
  apply Z.compare_eq in He.
  assert (Hm : Pos.compare_cont Eq m 4503599627370496 = Eq) by congruence.
  apply (Pos.compare_eq m 4503599627370496) in Hm.
  rewrite He, Hm. reflexivity.
Qed.

(** Writing the clamp with strict comparisons changes nothing but the sign
    of the zero returned for -0. *)
Lemma clamp01_strict (v : number) :
  v <> neg_zero -> clampStrict v = clamp01 v.
Proof.
  intros Hv. unfold clampStrict, clamp01.
  destruct v as [sg | sg | | sg m e].
  - destruct sg; [contradiction Hv; reflexivity | reflexivity].
  - destruct sg; reflexivity.
  - reflexivity.
  - destruct sg; [reflexivity |].
    unfold lt, le, SFltb, SFleb, pos_zero.
    change (SFcompare (S754_finite false m e) (S754_zero false)) with (Some Gt).
    cbv iota. rewrite compare_one_antisym.
    destruct (compare_one_defined m e) as [c Hc]. rewrite Hc.
    destruct c; cbn [option_map CompOpp]; try reflexivity.
    apply compare_one_eq, Hc.
Qed.

(** NaN is not in [0,1]. *)
Lemma nan_not_in_unit_interval : ~ in_unit_interval NaN.
Proof. intros [H _]. discriminate H. Qed.

(** ** The distances computed by [eyebrow.map] *)

Lemma verticalDistance_cons (q : point) (eye : list point) (i : nat) (p : point) :
  verticalDistance (q :: eye) (S i) p = verticalDistance eye i p.
Proof. reflexivity. Qed.

Lemma verticalDistance_nil (i : nat) (p : point) :
  verticalDistance [] i p = of_Z 0.
Proof. unfold verticalDistance. rewrite lookup_nil. reflexivity. Qed.

Lemma imap_verticalDistance (eyebrow eye : list point) :
  imap (verticalDistance eye) eyebrow = distances eyebrow eye.
Proof.
  revert eye. induction eyebrow as [ | p ps IH]; intros eye; [reflexivity |].
  rewrite imap_cons. destruct eye as [ | q qs]; cbn [distances].
  - rewrite verticalDistance_nil. f_equal.
    rewrite <- IH. apply imap_ext. intros i pt _. cbn.
    rewrite !verticalDistance_nil. reflexivity.
  - f_equal. rewrite <- IH. apply imap_ext. intros i pt _. reflexivity.
Qed.

Lemma fold_left_total (l : list number) (acc : number) :
  fold_left (fun sum dist => add sum dist) l acc = total_from acc l.
Proof.
  revert acc. induction l as [ | d l IH]; intros acc; [reflexivity |].
  cbn [fold_left total_from]. apply IH.
Qed.

(** ** The two signals *)

Lemma Ok_inj {A} (a b : A) : Ok a = Ok b -> a = b.
Proof. intros H. injection H as H. exact H. Qed.


(** C4: [calculateEyebrowRaise(eyebrow, eye)] is the clamp to [0,1] of
    [(d - eyebrowThresholdFloor) / (eyebrowThresholdCeil - eyebrowThresholdFloor)],
    where [d] is the mean over the eyebrow points of the vertical distance
    to the eye point of the same index, counted 0 where the eye has no
    point of that index. *)
Theorem calculateEyebrowRaise_spec (s : settings) (eyebrow eye : list point) :
  calculateEyebrowRaise s eyebrow eye =
  normalize (eyebrowThresholdFloor s) (eyebrowThresholdCeil s)
            (mean (distances eyebrow eye)).
Proof.
  unfold calculateEyebrowRaise, normalize, mean.
  rewrite max_min_clamp, imap_verticalDistance, fold_left_total.
  reflexivity.
Qed.

(** The value of [calculateMouthOpen] in terms of the two points it reads. *)
Lemma calculateMouthOpen_points (s : settings) (mouth : list point) (p q : point) :
  mouth !! 3%nat = Some p ->
  mouth !! 9%nat = Some q ->
  calculateMouthOpen s mouth =
  Ok (normalize (mouthThresholdFloor s) (mouthThresholdCeil s) (distance p q)).
Proof.
  intros Hp Hq. unfold calculateMouthOpen, euclideanDistance.
  rewrite Hp, Hq. cbn [get_x get_y].
  rewrite max_min_clamp. reflexivity.
Qed.

(** C5: when [mouth[3]] and [mouth[9]] exist, [calculateMouthOpen(mouth)] is
    the clamp to [0,1] of
    [(d - mouthThresholdFloor) / (mouthThresholdCeil - mouthThresholdFloor)],
    where [d] is the Euclidean distance between these two points. *)
Theorem calculateMouthOpen_spec (s : settings) (mouth : list point) (p q : point) :
  mouth !! 3%nat = Some p ->
  mouth !! 9%nat = Some q ->
  calculateMouthOpen s mouth =
  Ok (normalize (mouthThresholdFloor s) (mouthThresholdCeil s) (distance p q)).
Proof.
  intros Hp Hq. unfold calculateMouthOpen.
  rewrite Hp, Hq. unfold euclideanDistance. cbn [get_x get_y].
  unfold normalize, distance. rewrite <- max_min_clamp. reflexivity.
Qed.

Lemma calculateMouthOpen_spec_witness :
  getMouth (faceWith 20 20) !! 3%nat = Some (pt 50 120) /\
  getMouth (faceWith 20 20) !! 9%nat = Some (pt 50 140) /\
  calculateMouthOpen defaultSettings (getMouth (faceWith 20 20)) =
  Ok (normalize (mouthThresholdFloor defaultSettings)
                (mouthThresholdCeil defaultSettings)
                (distance (pt 50 120) (pt 50 140))).
Proof.
  split; [reflexivity | split; [reflexivity |]].
  apply (calculateMouthOpen_spec defaultSettings (getMouth (faceWith 20 20))
                                 (pt 50 120) (pt 50 140)); reflexivity.
Defined.

(** [calculateMouthOpen] reads its argument only at indices 3 and 9. *)
Lemma calculateMouthOpen_reads (s : settings) (mouth mouth' : list point) :
  mouth' !! 3%nat = mouth !! 3%nat ->
  mouth' !! 9%nat = mouth !! 9%nat ->
  calculateMouthOpen s mouth' = calculateMouthOpen s mouth.
Proof. intros H3 H9. unfold calculateMouthOpen. rewrite H3, H9. reflexivity. Qed.

(** C10: on a mouth array of at least ten points, the two reads of
    [calculateMouthOpen], at indices 3 and 9, are within bounds and the call
    returns a value; no other element of the array is read. *)
Theorem calculateMouthOpen_safe (s : settings) (mouth : list point) :
  (10 <= length mouth)%nat ->
  (exists p q v, mouth !! 3%nat = Some p /\ mouth !! 9%nat = Some q /\
                 calculateMouthOpen s mouth = Ok v) /\
  (forall mouth' : list point,
      mouth' !! 3%nat = mouth !! 3%nat ->
      mouth' !! 9%nat = mouth !! 9%nat ->
      calculateMouthOpen s mouth' = calculateMouthOpen s mouth).
Proof.
  intros Hlen. split.
  - destruct (lookup_lt_is_Some_2 mouth 3%nat) as [p Hp]; [lia |].
    destruct (lookup_lt_is_Some_2 mouth 9%nat) as [q Hq]; [lia |].
    exists p, q. eexists. split; [exact Hp | split; [exact Hq |]].
    exact (calculateMouthOpen_points s mouth p q Hp Hq).
  - intros mouth'. apply calculateMouthOpen_reads.
Qed.

Lemma calculateMouthOpen_safe_witness :
  (10 <= length (getMouth (faceWith 20 20)))%nat /\
  ((exists p q v, getMouth (faceWith 20 20) !! 3%nat = Some p /\
                  getMouth (faceWith 20 20) !! 9%nat = Some q /\
                  calculateMouthOpen defaultSettings (getMouth (faceWith 20 20)) = Ok v) /\
   (forall mouth' : list point,
       mouth' !! 3%nat = getMouth (faceWith 20 20) !! 3%nat ->
       mouth' !! 9%nat = getMouth (faceWith 20 20) !! 9%nat ->
       calculateMouthOpen defaultSettings mouth' =
       calculateMouthOpen defaultSettings (getMouth (faceWith 20 20)))).
Proof.
  split; [cbn; lia |].
  apply (calculateMouthOpen_safe defaultSettings (getMouth (faceWith 20 20))).
  cbn; lia.
Defined.

(** Whenever the normalised quotient is a number, the signal lies in
    [0,1]; when it is NaN, so is the signal. *)
Lemma normalize_range (floor ceil d : number) :
  is_nan (div (sub d floor) (sub ceil floor)) = false ->
  in_unit_interval (normalize floor ceil d).
Proof. apply clamp01_range. Qed.

(** X7: each signal is NaN or a value of [0,1]. *)
Theorem signals_nan_or_in_range (s : settings) (eyebrow eye mouth : list point) :
  (calculateEyebrowRaise s eyebrow eye = NaN \/
   in_unit_interval (calculateEyebrowRaise s eyebrow eye)) /\
  (forall v, calculateMouthOpen s mouth = Ok v -> v = NaN \/ in_unit_interval v).
Proof.
  split.
  - unfold calculateEyebrowRaise. rewrite max_min_clamp. apply clamp01_nan_or_range.
  - unfold calculateMouthOpen. intros v Hv.
    destruct (euclideanDistance (mouth !! 3%nat) (mouth !! 9%nat)) as [d | e];
      [| discriminate Hv].
    apply Ok_inj in Hv. subst v. rewrite max_min_clamp. apply clamp01_nan_or_range.
Qed.

(** With the default thresholds: eyebrows 30 above the eyes saturate the
    signal, eyebrows 18 above give 0, and a mouth opened by 20 gives
    10/29. *)
Example signals_on_sample_faces :
  calculateEyebrowRaise defaultSettings (getLeftEyeBrow (faceWith 30 20))
                        (getLeftEye (faceWith 30 20)) = of_Z 1 /\
  calculateEyebrowRaise defaultSettings (getLeftEyeBrow (faceWith 18 20))
                        (getLeftEye (faceWith 18 20)) = pos_zero /\
  calculateMouthOpen defaultSettings (getMouth (faceWith 30 20)) =
  Ok (div (of_Z 10) (of_Z 29)).
Proof.
  split; [vm_compute; reflexivity |].
  split; vm_compute; reflexivity.
Qed.

(** The sign of zero in [Math.max] and [Math.min], and NaN. *)
Example math_max_min_zeros :
  Math_max [neg_zero; pos_zero] = pos_zero /\
  Math_max [pos_zero; neg_zero] = pos_zero /\
  Math_min [pos_zero; neg_zero] = neg_zero /\
  Math_min [neg_zero; pos_zero] = neg_zero /\
  Math_max [] = neg_infinity /\
  Math_min [of_Z 1; NaN] = NaN /\
  Math_max [pos_zero; NaN] = NaN.
Proof. repeat (split; [vm_compute; reflexivity |]). vm_compute. reflexivity. Qed.

(** C1, at a failing input: with the eyebrow ceiling on its floor 18 and
    an eyebrow 18 above the eye, [calculateEyebrowRaise] returns NaN; with
    the mouth ceiling on its floor 10 and a mouth opened by 10,
    [calculateMouthOpen] returns NaN; NaN is not in [0,1]. *)
Theorem signals_nan_on_flat_thresholds :
  calculateEyebrowRaise flatSettings (getLeftEyeBrow (faceWith 18 10))
                        (getLeftEye (faceWith 18 10)) = NaN /\
  calculateMouthOpen flatSettings (getMouth (faceWith 18 10)) = Ok NaN /\
  ~ in_unit_interval NaN.
Proof.
  split; [vm_compute; reflexivity | split; [vm_compute; reflexivity |]].
  exact nan_not_in_unit_interval.
Qed.

(** ** Reasoning about statements *)

Section Statements.
Context {X : Type} (f : store -> X) (P : store -> Prop).

Lemma bind_fst {A B} (m : M A) (k : A -> M B) (st : store) :
  (bind m k st).1 =
  match (m st).2 with
  | Ok a => (k a (m st).1).1
  | Throw _ => (m st).1
  end.
Proof. unfold bind. destruct (m st) as [st' [a | e]]; reflexivity. Qed.

Lemma keeps_ret {A} (a : A) : keeps f (ret a).
Proof. intros st. reflexivity. Qed.

Lemma keeps_eval {A} (r : result A) : keeps f (eval r).
Proof. intros st. reflexivity. Qed.

Lemma keeps_read {A} (g : store -> A) : keeps f (read g).
Proof. intros st. reflexivity. Qed.

Lemma keeps_bind {A B} (m : M A) (k : A -> M B) :
  keeps f m -> (forall a, keeps f (k a)) -> keeps f (bind m k).
Proof.
  intros Hm Hk st. rewrite bind_fst.
  destruct ((m st).2) as [a | e]; [rewrite Hk |]; apply Hm.
Qed.

Lemma keeps_when (b : bool) (m : M unit) : keeps f m -> keeps f (when b m).
Proof. intros Hm. destruct b; [exact Hm | apply keeps_ret]. Qed.

Lemma keeps_forEach {A} (body : A -> M unit) (l : list A) :
  (forall a, keeps f (body a)) -> keeps f (forEach body l).
Proof.
  intros Hb. induction l as [ | a l IH]; [apply keeps_ret |].
  cbn [forEach]. apply keeps_bind; [apply Hb | intros _; exact IH].
Qed.

Lemma preserves_ret {A} (a : A) : preserves P (ret a).
Proof. intros st H. exact H. Qed.

Lemma preserves_bind {A B} (m : M A) (k : A -> M B) :
  preserves P m -> (forall a, preserves P (k a)) -> preserves P (bind m k).
Proof.
  intros Hm Hk st H. rewrite bind_fst.
  destruct ((m st).2) as [a | e]; [apply Hk |]; apply Hm, H.
Qed.

Lemma preserves_when (b : bool) (m : M unit) :
  preserves P m -> preserves P (when b m).
Proof. intros Hm. destruct b; [exact Hm | apply preserves_ret]. Qed.

Lemma preserves_forEach {A} (body : A -> M unit) (l : list A) :
  (forall a, preserves P (body a)) -> preserves P (forEach body l).
Proof.
  intros Hb. induction l as [ | a l IH]; [apply preserves_ret |].
  cbn [forEach]. apply preserves_bind; [apply Hb | intros _; exact IH].
Qed.

Lemma keeps_preserves {A} (Q : X -> Prop) (m : M A) :
  keeps f m -> preserves (fun st => Q (f st)) m.
Proof. intros Hm st H. rewrite Hm. exact H. Qed.
End Statements.

Lemma grows_ret {A} (a : A) : grows (ret a).
Proof. intros st. exists []. cbn. rewrite app_nil_r. reflexivity. Qed.

Lemma grows_eval {A} (r : result A) : grows (eval r).
Proof. intros st. exists []. cbn. rewrite app_nil_r. reflexivity. Qed.

Lemma grows_read {A} (g : store -> A) : grows (read g).
Proof. intros st. exists []. cbn. rewrite app_nil_r. reflexivity. Qed.

Lemma grows_call (e : event) : grows (call e).
Proof. intros st. exists [e]. reflexivity. Qed.

Lemma grows_set_leftEyebrowRaise (v : number) : grows (set_leftEyebrowRaise v).
Proof. intros st. exists []. cbn. rewrite app_nil_r. reflexivity. Qed.

Lemma grows_set_mouthOpen (v : number) : grows (set_mouthOpen v).
Proof. intros st. exists []. cbn. rewrite app_nil_r. reflexivity. Qed.

Lemma grows_set_lastResetTime (t : Z) : grows (set_lastResetTime t).
Proof. intros st. exists []. cbn. rewrite app_nil_r. reflexivity. Qed.

Lemma grows_bind {A B} (m : M A) (k : A -> M B) :
  grows m -> (forall a, grows (k a)) -> grows (bind m k).
Proof.
  intros Hm Hk st. rewrite bind_fst.
  destruct (Hm st) as [new1 H1].
  destruct ((m st).2) as [a | e].
  - destruct (Hk a (m st).1) as [new2 H2].
    exists (new1 ++ new2). rewrite H2, H1, app_assoc. reflexivity.
  - exists new1. exact H1.
Qed.

Lemma grows_when (b : bool) (m : M unit) : grows m -> grows (when b m).
Proof. intros Hm. destruct b; [exact Hm | apply grows_ret]. Qed.

Lemma grows_forEach {A} (body : A -> M unit) (l : list A) :
  (forall a, grows (body a)) -> grows (forEach body l).
Proof.
  intros Hb. induction l as [ | a l IH]; [apply grows_ret |].
  cbn [forEach]. apply grows_bind; [apply Hb | intros _; exact IH].
Qed.

Ltac grows_tac :=
  repeat first
    [ apply grows_ret | apply grows_eval | apply grows_read | apply grows_call
    | apply grows_set_leftEyebrowRaise | apply grows_set_mouthOpen
    | apply grows_set_lastResetTime
    | apply grows_when
    | apply grows_bind; [ | intros ? ] ].

Lemma detectFace_grows (s : settings) (o : sample) : grows (detectFace s o).
Proof.
  unfold detectFace.
  destruct ((length (getLeftEye (detection o)) =? 6)%nat &&
            (length (getRightEye (detection o)) =? 6)%nat); grows_tac.
Qed.

Lemma detectFaces_grows (s : settings) (ds : list sample) : grows (detectFaces s ds).
Proof.
  unfold detectFaces. grows_tac. apply grows_forEach, detectFace_grows.
Qed.

(** What [emitted] returns for a statement that only adds calls. *)
Lemma emitted_spec {A} (m : M A) (st : store) (new : list event) :
  calls (m st).1 = calls st ++ new -> emitted m st = new.
Proof. intros H. unfold emitted. rewrite H. apply drop_app_length. Qed.

(** ** The loop body, face by face *)

Lemma bind_set_leftEyebrowRaise {B} (v : number) (k : unit -> M B) (st : store) :
  bind (set_leftEyebrowRaise v) k st =
  k tt {| leftEyebrowRaise := v; mouthOpen := mouthOpen st;
          lastResetTime := lastResetTime st; calls := calls st |}.
Proof. reflexivity. Qed.

Lemma bind_read {A B} (g : store -> A) (k : A -> M B) (st : store) :
  bind (read g) k st = k (g st) st.
Proof. reflexivity. Qed.

Lemma keeps_bind_tail {A B X} (f : store -> X) (m : M A) (k : A -> M B) (st : store) :
  (forall a, keeps f (k a)) -> f (bind m k st).1 = f (m st).1.
Proof.
  intros Hk. rewrite bind_fst.
  destruct ((m st).2) as [a | e]; [apply Hk | reflexivity].
Qed.

Lemma resets_app (l l' : list event) : resets (l ++ l') = resets l ++ resets l'.
Proof.
  induction l as [ | e l IH]; [reflexivity |].
  destruct e; cbn [app resets]; rewrite IH; reflexivity.
Qed.

Lemma elem_of_resets (t : Z) (l : list event) : ResetGame t ∈ l <-> t ∈ resets l.
Proof.
  induction l as [ | e l IH].
  - split; intros H; inversion H.
  - rewrite elem_of_cons, IH.
    destruct e; cbn [resets]; rewrite ?elem_of_cons.
    all: split; [intros [H | H] | intros H]; try discriminate H; auto.
    + left. congruence.
    + destruct H as [H | H]; [left; congruence | right; exact H].
Qed.

Lemma keeps_view_call (e : event) : resets [e] = [] -> keeps debounceView (call e).
Proof.
  intros He st. unfold debounceView. cbn [call fst calls lastResetTime].
  rewrite resets_app, He, app_nil_r. reflexivity.
Qed.

Lemma keeps_view_set_mouthOpen (v : number) : keeps debounceView (set_mouthOpen v).
Proof. intros st. reflexivity. Qed.

Ltac keeps_view :=
  repeat first
    [ apply keeps_ret | apply keeps_eval | apply keeps_read
    | apply keeps_view_set_mouthOpen
    | apply keeps_view_call; reflexivity
    | apply keeps_when
    | apply keeps_bind; [ | intros ? ] ].

(** What handling one face does to [lastResetTime] and the reset times. *)
Lemma detectFace_view (s : settings) (o : sample) (st : store) :
  debounceView (detectFace s o st).1 =
  if wellFormed (detection o) && resetCondition s o st
  then (clock o, resets (calls st) ++ [clock o])
  else debounceView st.
Proof.
  unfold detectFace.
  change ((length (getLeftEye (detection o)) =? 6)%nat &&
          (length (getRightEye (detection o)) =? 6)%nat)
    with (wellFormed (detection o)).
  destruct (wellFormed (detection o)); cbn [andb].
  - rewrite bind_set_leftEyebrowRaise, !bind_read.
    cbn [leftEyebrowRaise lastResetTime].
    rewrite keeps_bind_tail by (intros ?; keeps_view).
    fold (resetCondition s o st).
    destruct (resetCondition s o st); [| reflexivity].
    unfold debounceView. cbn. rewrite resets_app. reflexivity.
  - apply keeps_view_call. reflexivity.
Qed.

(** The calls one face adds contain a reset exactly when the eyes are well
    formed and the reset condition holds, and then at the time read. *)
Lemma detectFace_resets (s : settings) (o : sample) (st : store) :
  resets (emitted (detectFace s o) st) =
  if wellFormed (detection o) && resetCondition s o st then [clock o] else [].
Proof.
  destruct (detectFace_grows s o st) as [new Hnew].
  rewrite (emitted_spec _ _ _ Hnew).
  pose proof (detectFace_view s o st) as Hv.
  unfold debounceView in Hv. rewrite Hnew, resets_app in Hv.
  destruct (wellFormed (detection o) && resetCondition s o st).
  - injection Hv as _ Hv. apply app_inv_head in Hv. exact Hv.
  - injection Hv as _ Hv.
    apply (app_inv_head (resets (calls st))). rewrite app_nil_r. exact Hv.
Qed.

(** ** The debounce *)

Lemma spaced_snoc (l : list Z) (t : Z) :
  spaced l -> Forall (fun u => 3000 < t - u) l -> spaced (l ++ [t]).
Proof.
  induction l as [ | u l IH]; intros Hs Hf.
  - cbn. split; [constructor | exact I].
  - destruct Hs as [Hu Hs]. inversion Hf as [ | ? ? Htu Hf']; subst.
    cbn [app spaced]. split; [| apply IH; assumption].
    apply Forall_app. split; [exact Hu |]. constructor; [exact Htu | constructor].
Qed.

Lemma spaced_lookup (l : list Z) (i j : nat) (ti tj : Z) :
  spaced l -> (i < j)%nat -> l !! i = Some ti -> l !! j = Some tj -> 3000 < tj - ti.
Proof.
  revert i j. induction l as [ | u l IH]; intros i j Hs Hij Hi Hj.
  - rewrite lookup_nil in Hi. discriminate Hi.
  - destruct Hs as [Hu Hs]. destruct j as [ | j]; [lia |].
    destruct i as [ | i].
    + injection Hi as ->. cbn in Hj.
      exact (proj1 (Forall_lookup _ l) Hu j tj Hj).
    + cbn in Hi, Hj. apply (IH i j); [exact Hs | lia | exact Hi | exact Hj].
Qed.

Lemma resetCondition_elapsed (s : settings) (o : sample) (st : store) :
  resetCondition s o st = true -> 3000 < clock o - lastResetTime st.
Proof.
  unfold resetCondition. intros H.
  apply andb_true_iff in H as [_ H]. apply Z.ltb_lt in H. exact H.
Qed.

Lemma detectFace_debounced (s : settings) (o : sample) :
  preserves (fun st => debounced (debounceView st)) (detectFace s o).
Proof.
  intros st [Hs Hf]. rewrite detectFace_view.
  destruct (wellFormed (detection o) && resetCondition s o st) eqn:Hc;
    [| split; assumption].
  apply andb_true_iff in Hc as [_ Hc]. apply resetCondition_elapsed in Hc.
  cbn [debounceView fst snd] in Hs, Hf.
  split; cbn [fst snd].
  - apply spaced_snoc; [exact Hs |].
    eapply Forall_impl; [exact Hf |]. intros u Hu. cbn in Hu. lia.
  - apply Forall_app. split.
    + eapply Forall_impl; [exact Hf |]. intros u Hu. cbn in Hu. lia.
    + constructor; [lia | constructor].
Qed.

Lemma detectFaces_debounced (s : settings) (ds : list sample) :
  preserves (fun st => debounced (debounceView st)) (detectFaces s ds).
Proof.
  unfold detectFaces.
  apply preserves_bind;
    [apply (keeps_preserves debounceView debounced); keeps_view | intros _].
  apply preserves_bind;
    [apply (keeps_preserves debounceView debounced); keeps_view | intros _].
  apply preserves_forEach. intros o. apply detectFace_debounced.
Qed.

Lemma step_debounced (b b' : browser) (a : action) :
  debounced (debounceView (vars b)) ->
  step b a = Some b' ->
  debounced (debounceView (vars b')).
Proof.
  intros Hb Hstep. destruct a as [ | s | id | ds]; cbn [step] in Hstep.
  - injection Hstep as <-. exact Hb.
  - injection Hstep as <-. exact Hb.
  - destruct (bool_decide (id ∈ active b)); [| discriminate Hstep].
    injection Hstep as <-. exact Hb.
  - destruct (pending b) as [ | n]; [discriminate Hstep |].
    injection Hstep as <-. cbn [vars]. apply detectFaces_debounced, Hb.
Qed.

Lemma run_debounced (l : list action) (b b' : browser) :
  debounced (debounceView (vars b)) ->
  run b l = Some b' ->
  debounced (debounceView (vars b')).
Proof.
  revert b. induction l as [ | a l IH]; intros b Hb Hrun; cbn [run] in Hrun.
  - injection Hrun as <-. exact Hb.
  - destruct (step b a) as [b1 | ] eqn:Hstep; [| discriminate Hrun].
    apply (IH b1); [| exact Hrun]. exact (step_debounced b b1 a Hb Hstep).
Qed.

Lemma start_debounced (s : settings) : debounced (debounceView (vars (start s))).
Proof. split; cbn; [exact I | constructor]. Qed.

(** C2: while a face is handled, [resetGame] is called only if its eyes are
    well formed, the game is not running, the left eyebrow signal exceeds
    0.7 and more than 3000 ms have passed since [lastResetTime]; and in
    every run of the page any two calls of [resetGame] are more than
    3000 ms apart. *)
Theorem reset_debounced :
  (forall (s : settings) (o : sample) (st : store) (t : Z),
      ResetGame t ∈ emitted (detectFace s o) st ->
      wellFormed (detection o) = true /\
      gameRunning o = false /\
      gt (calculateEyebrowRaise s (getLeftEyeBrow (detection o))
                                  (getLeftEye (detection o))) lit_0_7 = true /\
      t = clock o /\
      3000 < clock o - lastResetTime st) /\
  (forall (s : settings) (l : list action) (b : browser) (i j : nat) (ti tj : Z),
      run (start s) l = Some b ->
      (i < j)%nat ->
      resets (calls (vars b)) !! i = Some ti ->
      resets (calls (vars b)) !! j = Some tj ->
      3000 < tj - ti).
Proof.
  split.
  - intros s o st t Ht. apply elem_of_resets in Ht.
    rewrite detectFace_resets in Ht.
    destruct (wellFormed (detection o)) eqn:Hwf; cbn [andb] in Ht;
      [| inversion Ht].
    destruct (resetCondition s o st) eqn:Hc; [| inversion Ht].
    apply list_elem_of_singleton in Ht.
    pose proof (resetCondition_elapsed s o st Hc) as Hel.
    unfold resetCondition in Hc.
    apply andb_true_iff in Hc as [Hc _]. apply andb_true_iff in Hc as [Hrun Hgt].
    apply negb_true_iff in Hrun. auto.
  - intros s l b i j ti tj Hrun Hij Hi Hj.
    destruct (run_debounced l (start s) b (start_debounced s) Hrun) as [Hs _].
    exact (spaced_lookup _ i j ti tj Hs Hij Hi Hj).
Qed.

Lemma reset_debounced_witness :
  exists b : browser,
    run (start defaultSettings) sampleRun = Some b /\
    resets (calls (vars b)) = [5000; 9000] /\
    3000 < 9000 - 5000.
Proof.
  eexists. split; [vm_compute; reflexivity |].
  split; [vm_compute; reflexivity |].
  eapply (proj2 reset_debounced defaultSettings sampleRun _ 0%nat 1%nat 5000 9000).
  - vm_compute. reflexivity.
  - lia.
  - vm_compute. reflexivity.
  - vm_compute. reflexivity.
Defined.

(** ** Malformed eye landmarks *)

(** C3: for a face whose left-eye or right-eye array does not have exactly
    six points, the tick completes without throwing, leaves
    [leftEyebrowRaise], [mouthOpen] and [lastResetTime] as they were, and
    its only call is the log message: [resetGame] is not called. *)
Theorem malformed_eyes_only_log (s : settings) (o : sample) (st : store) :
  length (getLeftEye (detection o)) <> 6%nat \/
  length (getRightEye (detection o)) <> 6%nat ->
  detectFace s o st =
  ({| leftEyebrowRaise := leftEyebrowRaise st;
      mouthOpen := mouthOpen st;
      lastResetTime := lastResetTime st;
      calls := calls st ++ [ConsoleLog "Error: Eye landmarks not detected correctly."] |},
   Ok tt).
Proof.
  intros H. unfold detectFace.
  destruct (Nat.eqb_spec (length (getLeftEye (detection o))) 6) as [Hl | Hl];
    destruct (Nat.eqb_spec (length (getRightEye (detection o))) 6) as [Hr | Hr];
    cbn [andb]; try reflexivity.
  destruct H as [H | H]; contradiction.
Qed.

Lemma malformed_eyes_only_log_witness :
  (length (getLeftEye (detection (brokenSample 5000))) <> 6%nat \/
   length (getRightEye (detection (brokenSample 5000))) <> 6%nat) /\
  detectFace defaultSettings (brokenSample 5000) initial_store =
  ({| leftEyebrowRaise := leftEyebrowRaise initial_store;
      mouthOpen := mouthOpen initial_store;
      lastResetTime := lastResetTime initial_store;
      calls := calls initial_store
               ++ [ConsoleLog "Error: Eye landmarks not detected correctly."] |},
   Ok tt).
Proof.
  assert (H : length (getLeftEye (detection (brokenSample 5000))) <> 6%nat \/
              length (getRightEye (detection (brokenSample 5000))) <> 6%nat)
    by (left; cbn; lia).
  split; [exact H |].
  exact (malformed_eyes_only_log defaultSettings (brokenSample 5000) initial_store H).
Defined.

(** ** The mouth signal and the graphics switch *)

Lemma bind_call {B} (e : event) (k : unit -> M B) (st : store) :
  bind (call e) k st =
  k tt {| leftEyebrowRaise := leftEyebrowRaise st; mouthOpen := mouthOpen st;
          lastResetTime := lastResetTime st; calls := calls st ++ [e] |}.
Proof. reflexivity. Qed.

(** With the graphics off, a face is handled without throwing, [mouthOpen]
    is not written, and [leftEyebrowRaise] is written when the eyes are
    well formed. *)
Lemma detectFace_quiet (s : settings) (o : sample) (st : store) :
  showGraphics s = false ->
  (detectFace s o st).2 = Ok tt /\
  mouthOpen (detectFace s o st).1 = mouthOpen st /\
  leftEyebrowRaise (detectFace s o st).1 =
  if wellFormed (detection o)
  then calculateEyebrowRaise s (getLeftEyeBrow (detection o)) (getLeftEye (detection o))
  else leftEyebrowRaise st.
Proof.
  intros Hsg. unfold detectFace.
  change ((length (getLeftEye (detection o)) =? 6)%nat &&
          (length (getRightEye (detection o)) =? 6)%nat)
    with (wellFormed (detection o)).
  destruct (wellFormed (detection o)).
  - rewrite bind_set_leftEyebrowRaise, !bind_read, Hsg.
    unfold when. cbn [leftEyebrowRaise lastResetTime].
    match goal with |- context [if ?c then _ else _] => destruct c end;
      repeat split; reflexivity.
  - repeat split; reflexivity.
Qed.

(** A face with malformed eyes leaves [mouthOpen] alone. *)
Lemma detectFace_malformed_mouth (s : settings) (o : sample) (st : store) :
  wellFormed (detection o) = false ->
  mouthOpen (detectFace s o st).1 = mouthOpen st.
Proof.
  intros Hwf. unfold detectFace.
  change ((length (getLeftEye (detection o)) =? 6)%nat &&
          (length (getRightEye (detection o)) =? 6)%nat)
    with (wellFormed (detection o)).
  rewrite Hwf. reflexivity.
Qed.

Lemma forEach_quiet (s : settings) (ds : list sample) (st : store) :
  showGraphics s = false ->
  (forEach (detectFace s) ds st).2 = Ok tt /\
  mouthOpen (forEach (detectFace s) ds st).1 = mouthOpen st /\
  leftEyebrowRaise (forEach (detectFace s) ds st).1 =
  lastBrows s ds (leftEyebrowRaise st).
Proof.
  intros Hsg. revert st. induction ds as [ | o ds IH]; intros st.
  - repeat split; reflexivity.
  - destruct (detectFace_quiet s o st Hsg) as (Hr & Hm & Hb).
    cbn [forEach]. unfold bind, lastBrows. cbn [fold_left].
    destruct (detectFace s o st) as [st1 r]. cbn [fst snd] in Hr, Hm, Hb.
    subst r. destruct (IH st1) as (Hr' & Hm' & Hb').
    rewrite Hr', Hm', Hb', Hm, Hb. repeat split; reflexivity.
Qed.

Lemma forEach_malformed_mouth (s : settings) (ds : list sample) (st : store) :
  Forall (fun o => wellFormed (detection o) = false) ds ->
  mouthOpen (forEach (detectFace s) ds st).1 = mouthOpen st.
Proof.
  intros Hall. revert st. induction Hall as [ | o ds Ho Hall IH]; intros st.
  - reflexivity.
  - cbn [forEach]. rewrite bind_fst.
    destruct ((detectFace s o st).2); [rewrite IH |];
      apply detectFace_malformed_mouth, Ho.
Qed.

(** What precedes the loop in a tick writes neither signal. *)
Lemma detectFaces_loop (s : settings) (ds : list sample) (st : store) :
  exists st0,
    detectFaces s ds st = forEach (detectFace s) ds st0 /\
    mouthOpen st0 = mouthOpen st /\
    leftEyebrowRaise st0 = leftEyebrowRaise st.
Proof.
  unfold detectFaces. rewrite bind_call.
  destruct (showLandmarks s); cbn [when].
  - rewrite bind_call. eexists. split; [reflexivity |]. split; reflexivity.
  - eexists. split; [reflexivity |]. split; reflexivity.
Qed.

(** C9: a tick changes the value returned by [getMouthOpen] only when
    [settings.showGraphics] is true and some face has well-formed eyes; when
    [showGraphics] is false the tick completes, [getMouthOpen] keeps its
    value whatever the mouth landmarks are, and [leftEyebrowRaise] is still
    updated from the faces with well-formed eyes. *)
Theorem mouthOpen_needs_graphics :
  (forall (s : settings) (ds : list sample) (st : store),
      getMouthOpen (detectFaces s ds st).1 <> getMouthOpen st ->
      showGraphics s = true /\
      exists o, o ∈ ds /\ wellFormed (detection o) = true) /\
  (forall (s : settings) (ds : list sample) (st : store),
      showGraphics s = false ->
      (detectFaces s ds st).2 = Ok tt /\
      getMouthOpen (detectFaces s ds st).1 = getMouthOpen st /\
      getBrows (detectFaces s ds st).1 = lastBrows s ds (getBrows st)).
Proof.
  unfold getMouthOpen, getBrows. split.
  - intros s ds st Hchg.
    destruct (detectFaces_loop s ds st) as (st0 & Heq & Hm0 & _).
    rewrite Heq, <- Hm0 in Hchg. split.
    + destruct (showGraphics s) eqn:Hsg; [reflexivity |].
      destruct (forEach_quiet s ds st0 Hsg) as (_ & Hm & _). contradiction.
    + destruct (decide (Exists (fun o => wellFormed (detection o) = true) ds))
        as [Hex | Hnex].
      * apply Exists_exists in Hex as (o & Ho & Hwf).
        exists o. split; assumption.
      * exfalso. apply Hchg, forEach_malformed_mouth.
        apply Forall_forall. intros o Ho.
        destruct (wellFormed (detection o)) eqn:Hwf; [| reflexivity].
        exfalso. apply Hnex, Exists_exists. exists o. split; assumption.
  - intros s ds st Hsg.
    destruct (detectFaces_loop s ds st) as (st0 & Heq & Hm0 & Hb0).
    rewrite Heq, <- Hm0, <- Hb0. apply forEach_quiet, Hsg.
Qed.

Lemma mouthOpen_needs_graphics_witness :
  showGraphics quietSettings = false /\
  getMouthOpen (detectFaces quietSettings [raisedSample 5000] initial_store).1 =
  getMouthOpen initial_store /\
  getBrows (detectFaces quietSettings [raisedSample 5000] initial_store).1 = of_Z 1.
Proof.
  split; [reflexivity |].
  destruct (proj2 mouthOpen_needs_graphics quietSettings [raisedSample 5000]
                  initial_store eq_refl) as (_ & Hm & Hb).
  split; [exact Hm |]. rewrite Hb. vm_compute. reflexivity.
Defined.

(** ** The detection timer *)

Lemma onPlay_singleInterval (b : browser) :
  singleInterval b -> singleInterval (onPlay b).
Proof.
  unfold singleInterval, onPlay. cbn [active intervalId]. intros ->.
  destruct (intervalId b) as [i | ]; cbn [clearInterval]; [| reflexivity].
  rewrite filter_cons_False by (intros H; apply H; reflexivity).
  reflexivity.
Qed.

Lemma step_singleInterval (b b' : browser) (a : action) :
  singleInterval b -> step b a = Some b' -> singleInterval b'.
Proof.
  intros Hb Hstep. destruct a as [ | s | id | ds]; cbn [step] in Hstep.
  - injection Hstep as <-. apply onPlay_singleInterval, Hb.
  - injection Hstep as <-. apply onPlay_singleInterval. exact Hb.
  - destruct (bool_decide (id ∈ active b)); [| discriminate Hstep].
    injection Hstep as <-. exact Hb.
  - destruct (pending b) as [ | n]; [discriminate Hstep |].
    injection Hstep as <-. exact Hb.
Qed.

Lemma run_singleInterval (l : list action) (b b' : browser) :
  singleInterval b -> run b l = Some b' -> singleInterval b'.
Proof.
  revert b. induction l as [ | a l IH]; intros b Hb Hrun; cbn [run] in Hrun.
  - injection Hrun as <-. exact Hb.
  - destruct (step b a) as [b1 | ] eqn:Hstep; [| discriminate Hrun].
    apply (IH b1); [| exact Hrun]. exact (step_singleInterval b b1 a Hb Hstep).
Qed.

(** An interval can fire while an earlier tick still waits for the
    detector: after [onPlay], interval 0 fires twice in a row. *)
Lemma second_tick_before_first_ends (s : settings) :
  exists b b',
    run (start s) [Play; Fire 0%nat] = Some b /\
    step b (Fire 0%nat) = Some b' /\
    pending b = 1%nat /\ pending b' = 2%nat.
Proof.
  eexists. eexists. split; [reflexivity |]. split; [reflexivity |].
  split; reflexivity.
Qed.

(** C6, as stated, fails: ticks can overlap. *)
Lemma ticks_can_overlap : ~ (oneIntervalAtATime /\ ticksNeverOverlap).
Proof.
  intros [_ H].
  destruct (second_tick_before_first_ends defaultSettings) as (b & b' & Hrun & Hstep & Hp & _).
  specialize (H defaultSettings [Play; Fire 0%nat] 0%nat b b' Hrun Hstep).
  rewrite Hp in H. discriminate H.
Qed.

(** C6, amended: at any time at most one detection interval is installed,
    the one recorded in [intervalId], because [onPlay] clears the previous
    interval before it installs a new one; a tick may however begin while an
    earlier tick is still waiting for the detector. *)
Theorem one_interval_at_a_time (s : settings) (l : list action) (b : browser) :
  run (start s) l = Some b ->
  (length (active b) <= 1)%nat /\
  singleInterval b /\
  exists b1 b2,
    run (start s) [Play; Fire 0%nat] = Some b1 /\
    step b1 (Fire 0%nat) = Some b2 /\
    pending b1 = 1%nat /\ pending b2 = 2%nat.
Proof.
  intros Hrun.
  assert (Hs : singleInterval b)
    by (apply (run_singleInterval l (start s) b); [reflexivity | exact Hrun]).
  split; [| split; [exact Hs | apply second_tick_before_first_ends]].
  rewrite Hs. destruct (intervalId b); cbn; lia.
Qed.

Lemma one_interval_at_a_time_witness :
  exists b : browser,
    run (start defaultSettings) [Play; Fire 0%nat; Play; GuiChange quietSettings] = Some b /\
    active b = [2%nat] /\
    (length (active b) <= 1)%nat.
Proof.
  eexists. split; [reflexivity |]. split; [reflexivity |].
  eapply (one_interval_at_a_time defaultSettings
            [Play; Fire 0%nat; Play; GuiChange quietSettings]).
  reflexivity.
Defined.

(** ** Settings persistence *)

(** The [for ... in] loop adds the defaults under the keys that are absent. *)
Lemma fold_fillDefault (es : list (string * jsval)) (o : object) :
  fold_left fillDefault es o = o ∪ list_to_map es.
Proof.
  revert o. induction es as [ | [k0 v0] es IH]; intros o.
  - cbn. rewrite (right_id_L ∅ (∪)). reflexivity.
  - cbn [fold_left list_to_map foldr]. rewrite IH. unfold fillDefault. cbn [fst snd].
    apply map_eq. intros k. rewrite !lookup_union.
    destruct (o !! k0) as [w0 | ] eqn:H0.
    + destruct (decide (k = k0)) as [-> | Hne].
      * rewrite H0. destruct (list_to_map es !! k0), (<[k0:=v0]> (list_to_map es) !! k0);
          reflexivity.
      * rewrite lookup_insert_ne by congruence. reflexivity.
    + destruct (decide (k = k0)) as [-> | Hne].
      * rewrite !lookup_insert_eq, H0.
        destruct (list_to_map es !! k0); reflexivity.
      * rewrite !lookup_insert_ne by congruence. reflexivity.
Qed.

(** Every declared key is a key of the record of a settings value. *)
Lemma object_of_keys (s : settings) (k : string) :
  k ∈ (entries s).*1 -> is_Some (object_of s !! k).
Proof.
  intros Hk. unfold object_of.
  destruct (list_to_map (entries s) !! k) as [v | ] eqn:Hl; [eexists; reflexivity |].
  apply not_elem_of_list_to_map in Hl. contradiction.
Qed.

Lemma loadSettings_absent : loadSettings None = Ok (object_of defaultSettings).
Proof.
  unfold loadSettings. rewrite fold_fillDefault.
  fold (object_of defaultSettings).
  rewrite (idemp (∪) (object_of defaultSettings)). reflexivity.
Qed.

Lemma loadSettings_record (o : object) :
  loadSettings (Some (Json (DRecord o))) = Ok (o ∪ object_of defaultSettings).
Proof.
  unfold loadSettings. cbn [truthy JSON_parse].
  rewrite fold_fillDefault. reflexivity.
Qed.

(** C7: whether nothing was persisted or a record with some keys missing,
    [loadSettings] returns a record that has every key of [defaultSettings];
    a persisted key keeps its persisted value, and a key that was not
    persisted has its default value. *)
Theorem loadSettings_complete (persisted : option object) :
  exists r : object,
    loadSettings (stored persisted) = Ok r /\
    complete r /\
    (forall o k v, persisted = Some o -> o !! k = Some v -> r !! k = Some v) /\
    (forall o k, persisted = Some o -> o !! k = None ->
                 r !! k = object_of defaultSettings !! k) /\
    (persisted = None -> r = object_of defaultSettings).
Proof.
  destruct persisted as [o | ]; cbn [stored fmap option_fmap option_map].
  - exists (o ∪ object_of defaultSettings).
    split; [apply loadSettings_record |]. split; [| split; [| split]].
    + intros k Hk. rewrite lookup_union.
      destruct (object_of_keys defaultSettings k Hk) as [d Hd]. rewrite Hd.
      destruct (o !! k); eexists; reflexivity.
    + intros o' k v [= <-] Hv. rewrite lookup_union, Hv.
      destruct (object_of defaultSettings !! k); reflexivity.
    + intros o' k [= <-] Hv. rewrite lookup_union, Hv.
      destruct (object_of defaultSettings !! k); reflexivity.
    + intros H. discriminate H.
  - exists (object_of defaultSettings).
    split; [apply loadSettings_absent |]. split; [| split; [| split]].
    + intros k Hk. apply object_of_keys, Hk.
    + intros o k v H. discriminate H.
    + intros o k H. discriminate H.
    + reflexivity.
Qed.

(** A persisted record with a single threshold is completed around it. *)
Example loadSettings_partial :
  exists r : object,
    loadSettings (stored (Some partialSettings)) = Ok r /\
    r !! "eyebrowThresholdCeil"%string = Some (VNum (of_Z 30)) /\
    r !! "eyebrowThresholdFloor"%string = Some (VNum (of_Z 18)) /\
    r !! "volume"%string = Some (VNum (of_Z 3)) /\
    r !! "showGraphics"%string = Some (VBool true).
Proof.
  eexists. split; [apply loadSettings_record |].
  repeat (split; [vm_compute; reflexivity |]). vm_compute. reflexivity.
Qed.

(** Saving then loading a record: every value is serialised, then the
    defaults fill the absent keys. *)
Lemma load_save (o : object) :
  loadSettings (saveSettings o) = Ok ((serialize <$> o) ∪ object_of defaultSettings).
Proof. apply loadSettings_record. Qed.

Lemma serialize_representable (v : jsval) :
  representable v = true -> serialize v = v.
Proof.
  destruct v as [ | b | n | str]; try reflexivity.
  destruct n as [sg | sg | | sg m e]; try discriminate; try reflexivity.
  destruct sg; [discriminate | reflexivity].
Qed.

(** C8, as stated, fails: a complete record whose eyebrow ceiling is
    Infinity is not the record that comes back. *)
Lemma save_load_loses_infinity :
  ~ (forall o : object, complete o -> loadSettings (saveSettings o) = Ok o).
Proof.
  intros H. specialize (H overflowSettings).
  rewrite load_save in H.
  assert (Hc : complete overflowSettings).
  { intros k Hk. unfold overflowSettings.
    destruct (decide (k = "eyebrowThresholdCeil"%string)) as [-> | Hne].
    - rewrite lookup_insert_eq. eexists; reflexivity.
    - rewrite lookup_insert_ne by congruence. apply object_of_keys, Hk. }
  specialize (H Hc). apply Ok_inj in H.
  apply (f_equal (fun m : object => m !! "eyebrowThresholdCeil"%string)) in H.
  rewrite lookup_union, lookup_fmap in H. unfold overflowSettings in H.
  rewrite lookup_insert_eq in H.
  cbn [fmap option_fmap option_map serialize pos_infinity] in H.
  destruct (object_of defaultSettings !! "eyebrowThresholdCeil"%string); discriminate H.
Qed.

(** C8, amended: for every settings record that has all keys of
    [defaultSettings] and whose values are null, booleans, strings or finite
    numbers other than -0, [saveSettings] followed by [loadSettings] returns
    the record that was saved. *)
Theorem save_load_roundtrip (o : object) :
  complete o ->
  (forall k v, o !! k = Some v -> representable v = true) ->
  loadSettings (saveSettings o) = Ok o.
Proof.
  intros Hc Hrep. rewrite load_save. f_equal.
  apply map_eq. intros k. rewrite lookup_union, lookup_fmap.
  destruct (o !! k) as [v | ] eqn:Hk; cbn [fmap option_fmap option_map].
  - rewrite (serialize_representable v (Hrep k v Hk)).
    destruct (object_of defaultSettings !! k); reflexivity.
  - destruct (object_of defaultSettings !! k) as [d | ] eqn:Hd; [| reflexivity].
    exfalso. assert (Hin : k ∈ defaultKeys).
    { destruct (decide (k ∈ defaultKeys)) as [Hin | Hnin]; [exact Hin |].
      apply not_elem_of_list_to_map in Hnin. unfold object_of in Hd.
      rewrite Hd in Hnin. discriminate Hnin. }
    destruct (Hc k Hin) as [v Hv]. rewrite Hk in Hv. discriminate Hv.
Qed.

Lemma defaultSettings_representable (k : string) (v : jsval) :
  object_of defaultSettings !! k = Some v -> representable v = true.
Proof.
  intros H. apply elem_of_list_to_map_2 in H.
  assert (Hall : Forall (fun kv => representable kv.2 = true) (entries defaultSettings))
    by (repeat constructor).
  exact (proj1 (Forall_forall _ _) Hall (k, v) H).
Qed.

Lemma save_load_roundtrip_witness :
  complete (object_of defaultSettings) /\
  (forall k v, object_of defaultSettings !! k = Some v -> representable v = true) /\
  loadSettings (saveSettings (object_of defaultSettings)) = Ok (object_of defaultSettings).
Proof.
  assert (Hc : complete (object_of defaultSettings))
    by (intros k Hk; apply object_of_keys, Hk).
  split; [exact Hc |]. split; [exact defaultSettings_representable |].
  exact (save_load_roundtrip (object_of defaultSettings) Hc
                             defaultSettings_representable).
Defined.

(* ===================================================================== *)
(** * Part III: further properties of the module                          *)
(* ===================================================================== *)

(** ** Rounding and signs *)

Lemma binary_round_aux_opp (sg : bool) (m e : Z) (l : location) :
  binary_round_aux prec emax (negb sg) m e l =
  SFopp (binary_round_aux prec emax sg m e l).
Proof.
  unfold binary_round_aux.
  destruct (shr_fexp prec emax m e l) as [mrs1 e1].
  destruct (shr_fexp prec emax _ e1 loc_Exact) as [mrs2 e2].
  destruct (shr_m mrs2); [reflexivity | | reflexivity].
  destruct (e2 <=? emax - prec); reflexivity.
Qed.

Lemma binary_round_aux_unsigned (m e : Z) (l : location) :
  unsigned (binary_round_aux prec emax false m e l).
Proof.
  unfold binary_round_aux.
  destruct (shr_fexp prec emax m e l) as [mrs1 e1].
  destruct (shr_fexp prec emax _ e1 loc_Exact) as [mrs2 e2].
  destruct (shr_m mrs2); [reflexivity | | exact I].
  destruct (e2 <=? emax - prec); reflexivity.
Qed.

Lemma binary_round_opp (sg : bool) (m : positive) (e : Z) :
  binary_round prec emax (negb sg) m e = SFopp (binary_round prec emax sg m e).
Proof.
  unfold binary_round.
  destruct (shl_align m e _) as [mz ez]. apply binary_round_aux_opp.
Qed.

Lemma binary_round_unsigned (m : positive) (e : Z) :
  unsigned (binary_round prec emax false m e).
Proof.
  unfold binary_round.
  destruct (shl_align m e _) as [mz ez]. apply binary_round_aux_unsigned.
Qed.

(** Rounding the opposite integer gives the opposite number, except that
    both roundings of 0 are +0. *)
Lemma binary_normalize_opp (m e : Z) :
  m <> 0 ->
  binary_normalize prec emax (- m) e false =
  SFopp (binary_normalize prec emax m e false).
Proof.
  intros Hm. destruct m as [ | p | p]; [contradiction Hm; reflexivity | | ].
  - change (binary_round prec emax (negb false) p e =
            SFopp (binary_round prec emax false p e)).
    apply binary_round_opp.
  - change (binary_round prec emax false p e =
            SFopp (binary_round prec emax (negb false) p e)).
    rewrite binary_round_opp.
    destruct (binary_round prec emax false p e) as [sg | sg | | sg m' e'];
      try reflexivity; destruct sg; reflexivity.
Qed.

(** [a - b] is the opposite of [b - a], unless both are +0. *)
Lemma sub_swap (a b : number) :
  sub a b = SFopp (sub b a) \/ (sub a b = pos_zero /\ sub b a = pos_zero).
Proof.
  destruct a as [sa | sa | | sa ma ea], b as [sb | sb | | sb mb eb];
    try (left; reflexivity);
    try (destruct sa, sb; (left; reflexivity) || (right; split; reflexivity)).
  unfold sub. cbn [SFsub]. rewrite (Z.min_comm eb ea).
  set (A := cond_Zopp sa (Z.pos (shl_align ma ea (Z.min ea eb)).1)).
  set (B := cond_Zopp sb (Z.pos (shl_align mb eb (Z.min ea eb)).1)).
  destruct (Z.eq_dec (B - A) 0) as [H0 | Hne].
  - right. replace (A - B) with 0 by lia. rewrite H0. split; reflexivity.
  - left. replace (A - B) with (- (B - A)) by lia.
    apply binary_normalize_opp, Hne.
Qed.

(** A square does not see the sign of its argument. *)
Lemma mul_opp_opp (d : number) : mul (SFopp d) (SFopp d) = mul d d.
Proof.
  destruct d as [sg | sg | | sg m e]; try reflexivity;
    destruct sg; reflexivity.
Qed.

Lemma square_swap (a b : number) :
  mul (sub a b) (sub a b) = mul (sub b a) (sub b a).
Proof.
  destruct (sub_swap a b) as [H | [H1 H2]].
  - rewrite H. apply mul_opp_opp.
  - rewrite H1, H2. reflexivity.
Qed.

Lemma square_unsigned (d : number) : unsigned (mul d d).
Proof.
  destruct d as [sg | sg | | sg m e]; cbn [mul SFmul unsigned].
  - apply xorb_nilpotent.
  - apply xorb_nilpotent.
  - exact I.
  - rewrite xorb_nilpotent. apply binary_round_aux_unsigned.
Qed.

Lemma add_unsigned (a b : number) : unsigned a -> unsigned b -> unsigned (add a b).
Proof.
  destruct a as [sa | sa | | sa ma ea], b as [sb | sb | | sb mb eb];
    cbn [unsigned]; intros Ha Hb; subst; try exact I; try reflexivity.
  unfold add. cbn [SFadd cond_Zopp Z.add binary_normalize].
  apply binary_round_unsigned.
Qed.

Lemma sqrt_unsigned (a : number) : unsigned a -> unsigned (Math_sqrt a).
Proof.
  destruct a as [sa | sa | | sa ma ea]; cbn [unsigned]; intros Ha; subst;
    try exact I; try reflexivity.
  unfold Math_sqrt. cbn [SFsqrt].
  destruct (SFsqrt_core_binary prec emax (Z.pos ma) ea) as [[mz ez] lz].
  apply binary_round_aux_unsigned.
Qed.

Lemma unsigned_le (v : number) : unsigned v -> v = NaN \/ le pos_zero v = true.
Proof.
  destruct v as [sg | sg | | sg m e]; cbn [unsigned]; intros H; subst;
    (left; reflexivity) || (right; reflexivity).
Qed.

Lemma sub_diag_finite (a : number) : finite a = true -> sub a a = pos_zero.
Proof.
  destruct a as [sg | sg | | sg m e]; intros H; try discriminate H.
  - destruct sg; reflexivity.
  - unfold sub. cbn [SFsub]. rewrite Z.sub_diag. reflexivity.
Qed.

(** ** The distance between two landmarks *)

(** X1: [euclideanDistance] does not depend on the order of its arguments,
    whether it returns or throws. *)
Theorem euclideanDistance_symmetric (p q : option point) :
  euclideanDistance p q = euclideanDistance q p.
Proof.
  destruct p as [p | ], q as [q | ]; try reflexivity.
  unfold euclideanDistance. cbn [get_x get_y].
  rewrite (square_swap (x p) (x q)), (square_swap (y p) (y q)). reflexivity.
Qed.

(** X2: a distance returned by [euclideanDistance] is NaN or a number with the
    sign +, at least 0: never a negative number, never -0. *)
Theorem euclideanDistance_unsigned (p q : option point) (d : number) :
  euclideanDistance p q = Ok d ->
  unsigned d /\ (d = NaN \/ le pos_zero d = true).
Proof.
  intros H. assert (Hu : unsigned d).
  { destruct p as [p | ], q as [q | ]; try discriminate H.
    unfold euclideanDistance in H. cbn [get_x get_y] in H.
    apply Ok_inj in H. subst d.
    apply sqrt_unsigned, add_unsigned; apply square_unsigned. }
  split; [exact Hu | apply unsigned_le, Hu].
Qed.

Lemma euclideanDistance_unsigned_witness :
  euclideanDistance (Some (pt 50 120)) (Some (pt 53 124)) = Ok (of_Z 5) /\
  unsigned (of_Z 5) /\ (of_Z 5 = NaN \/ le pos_zero (of_Z 5) = true).
Proof.
  assert (H : euclideanDistance (Some (pt 50 120)) (Some (pt 53 124)) = Ok (of_Z 5))
    by (vm_compute; reflexivity).
  split; [exact H |].
  exact (euclideanDistance_unsigned (Some (pt 50 120)) (Some (pt 53 124)) (of_Z 5) H).
Defined.

(** X3: the distance from a landmark with finite coordinates to itself is +0. *)
Theorem euclideanDistance_self (p : point) :
  finite (x p) = true -> finite (y p) = true ->
  euclideanDistance (Some p) (Some p) = Ok pos_zero.
Proof.
  intros Hx Hy. unfold euclideanDistance. cbn [get_x get_y].
  rewrite (sub_diag_finite (x p) Hx), (sub_diag_finite (y p) Hy). reflexivity.
Qed.

Lemma euclideanDistance_self_witness :
  finite (x (pt 50 120)) = true /\ finite (y (pt 50 120)) = true /\
  euclideanDistance (Some (pt 50 120)) (Some (pt 50 120)) = Ok pos_zero.
Proof.
  split; [reflexivity |]. split; [reflexivity |].
  apply (euclideanDistance_self (pt 50 120)); reflexivity.
Defined.

(** ** The mouth signal on short arrays *)

Lemma calculateMouthOpen_short (s : settings) (mouth : list point) :
  (length mouth < 10)%nat -> calculateMouthOpen s mouth = Throw TypeError.
Proof.
  intros Hlen. unfold calculateMouthOpen, euclideanDistance.
  rewrite (lookup_ge_None_2 mouth 9%nat) by lia.
  destruct (mouth !! 3%nat); reflexivity.
Qed.

(** X4: [calculateMouthOpen] throws exactly when the mouth array has fewer than
    ten points, and what it throws is a TypeError. *)
Theorem calculateMouthOpen_throws (s : settings) (mouth : list point) :
  ((length mouth < 10)%nat -> calculateMouthOpen s mouth = Throw TypeError) /\
  (forall e, calculateMouthOpen s mouth = Throw e -> (length mouth < 10)%nat).
Proof.
  split.
  - apply calculateMouthOpen_short.
  - intros e He.
    destruct (Nat.lt_ge_cases (length mouth) 10) as [Hlt | Hge]; [exact Hlt |].
    destruct (lookup_lt_is_Some_2 mouth 3%nat) as [p Hp]; [lia |].
    destruct (lookup_lt_is_Some_2 mouth 9%nat) as [q Hq]; [lia |].
    rewrite (calculateMouthOpen_points s mouth p q Hp Hq) in He. discriminate He.
Qed.

Lemma calculateMouthOpen_throws_witness :
  (length (take 9 (getMouth (faceWith 20 20))) < 10)%nat /\
  calculateMouthOpen defaultSettings (take 9 (getMouth (faceWith 20 20))) = Throw TypeError.
Proof.
  assert (H : (length (take 9 (getMouth (faceWith 20 20))) < 10)%nat) by (cbn; lia).
  split; [exact H |].
  exact (proj1 (calculateMouthOpen_throws defaultSettings
                  (take 9 (getMouth (faceWith 20 20)))) H).
Defined.

(** ** The eyebrow signal: what it reads *)

(** X5: with no eyebrow point the mean is 0/0, and the signal is NaN whatever
    the thresholds and the eye are. *)
Theorem calculateEyebrowRaise_empty (s : settings) (eye : list point) :
  calculateEyebrowRaise s [] eye = NaN.
Proof. reflexivity. Qed.

Lemma distances_heights (eyebrow eyebrow' eye eye' : list point) :
  heights eyebrow = heights eyebrow' ->
  take (length eyebrow) (heights eye) = take (length eyebrow) (heights eye') ->
  distances eyebrow eye = distances eyebrow' eye'.
Proof.
  revert eyebrow' eye eye'.
  induction eyebrow as [ | p ps IH]; intros [ | p' ps'] eye eye' Hb He;
    try discriminate Hb; [reflexivity |].
  cbn [heights map] in Hb. injection Hb as Hy Hb.
  destruct eye as [ | q qs], eye' as [ | q' qs']; cbn [distances];
    cbn [heights map length take] in He; try discriminate He.
  - f_equal. apply IH; [exact Hb | reflexivity].
  - injection He as Hq He. rewrite Hy, Hq. f_equal. apply IH; [exact Hb | exact He].
Qed.

(** X6: [calculateEyebrowRaise] reads only the heights of the eyebrow points and
    of the eye points of the same indices: the [x] coordinates and the eye
    points beyond the length of the eyebrow do not matter. *)
Theorem calculateEyebrowRaise_reads (s : settings) (eyebrow eyebrow' eye eye' : list point) :
  heights eyebrow = heights eyebrow' ->
  take (length eyebrow) (heights eye) = take (length eyebrow) (heights eye') ->
  calculateEyebrowRaise s eyebrow eye = calculateEyebrowRaise s eyebrow' eye'.
Proof.
  intros Hb He. unfold calculateEyebrowRaise.
  rewrite !imap_verticalDistance, (distances_heights eyebrow eyebrow' eye eye' Hb He).
  reflexivity.
Qed.

Lemma calculateEyebrowRaise_reads_witness :
  heights (getLeftEyeBrow (faceWith 20 20)) = heights (getRightEyeBrow (faceWith 20 20)) /\
  take (length (getLeftEyeBrow (faceWith 20 20))) (heights (getLeftEye (faceWith 20 20))) =
  take (length (getLeftEyeBrow (faceWith 20 20))) (heights (getLeftEye brokenFace)) /\
  calculateEyebrowRaise defaultSettings (getLeftEyeBrow (faceWith 20 20))
                        (getLeftEye (faceWith 20 20)) =
  calculateEyebrowRaise defaultSettings (getRightEyeBrow (faceWith 20 20))
                        (getLeftEye brokenFace).
Proof.
  split; [reflexivity |]. split; [reflexivity |].
  apply (calculateEyebrowRaise_reads defaultSettings); reflexivity.
Defined.

(** ** Ticks that complete and ticks that throw *)

Lemma completes_ret {A} (a : A) : completes (ret a).
Proof. intros st. exists a. reflexivity. Qed.

Lemma completes_read {A} (g : store -> A) : completes (read g).
Proof. intros st. eexists. reflexivity. Qed.

Lemma completes_call (e : event) : completes (call e).
Proof. intros st. exists tt. reflexivity. Qed.

Lemma completes_eval_Ok {A} (a : A) : completes (eval (Ok a)).
Proof. intros st. exists a. reflexivity. Qed.

Lemma completes_set_leftEyebrowRaise (v : number) : completes (set_leftEyebrowRaise v).
Proof. intros st. exists tt. reflexivity. Qed.

Lemma completes_set_mouthOpen (v : number) : completes (set_mouthOpen v).
Proof. intros st. exists tt. reflexivity. Qed.

Lemma completes_set_lastResetTime (t : Z) : completes (set_lastResetTime t).
Proof. intros st. exists tt. reflexivity. Qed.

Lemma bind_snd {A B} (m : M A) (k : A -> M B) (st : store) :
  (bind m k st).2 =
  match (m st).2 with
  | Ok a => (k a (m st).1).2
  | Throw e => Throw e
  end.
Proof. unfold bind. destruct (m st) as [st' [a | e]]; reflexivity. Qed.

Lemma completes_bind {A B} (m : M A) (k : A -> M B) :
  completes m -> (forall a, completes (k a)) -> completes (bind m k).
Proof.
  intros Hm Hk st. rewrite bind_snd.
  destruct (Hm st) as [a Ha]. rewrite Ha. apply Hk.
Qed.

Lemma completes_when (b : bool) (m : M unit) : completes m -> completes (when b m).
Proof. intros Hm. destruct b; [exact Hm | apply completes_ret]. Qed.

Lemma completes_forEach {A} (body : A -> M unit) (l : list A) :
  Forall (fun a => completes (body a)) l -> completes (forEach body l).
Proof.
  intros Hall. induction Hall as [ | a l Ha Hall IH]; [apply completes_ret |].
  cbn [forEach]. apply completes_bind; [exact Ha | intros _; exact IH].
Qed.

Lemma completes_unit (m : M unit) (st : store) : completes m -> (m st).2 = Ok tt.
Proof. intros Hm. destruct (Hm st) as [[] Ha]. exact Ha. Qed.

Ltac completes_tac :=
  repeat first
    [ apply completes_ret | apply completes_read | apply completes_call
    | apply completes_eval_Ok
    | apply completes_set_leftEyebrowRaise | apply completes_set_mouthOpen
    | apply completes_set_lastResetTime
    | apply completes_when
    | apply completes_bind; [ | intros ? ] ].

(** The eye reads of the drawing code succeed on an eye of six points. *)
Lemma six_points (eye : list point) :
  length eye = 6%nat ->
  exists p0 p1 p2 p3 p4 p5, eye = [p0; p1; p2; p3; p4; p5].
Proof.
  intros H.
  destruct eye as [ | p0 [ | p1 [ | p2 [ | p3 [ | p4 [ | p5 [ | p6 eye]]]]]]];
    try discriminate H.
  exists p0, p1, p2, p3, p4, p5. reflexivity.
Qed.

Lemma wellFormed_six (f : face) :
  wellFormed f = true ->
  length (getLeftEye f) = 6%nat /\ length (getRightEye f) = 6%nat.
Proof.
  unfold wellFormed. intros H. apply andb_true_iff in H as [Hl Hr].
  apply Nat.eqb_eq in Hl, Hr. split; assumption.
Qed.

Lemma detectFace_completes (s : settings) (o : sample) :
  sized (detection o) -> completes (detectFace s o).
Proof.
  intros (Hm & Hlb & Hrb). unfold detectFace.
  change ((length (getLeftEye (detection o)) =? 6)%nat &&
          (length (getRightEye (detection o)) =? 6)%nat)
    with (wellFormed (detection o)).
  destruct (wellFormed (detection o)) eqn:Hwf; [| apply completes_call].
  destruct (wellFormed_six _ Hwf) as [Hl Hr].
  destruct (six_points _ Hl) as (l0 & l1 & l2 & l3 & l4 & l5 & ->).
  destruct (six_points _ Hr) as (r0 & r1 & r2 & r3 & r4 & r5 & ->).
  destruct (lookup_lt_is_Some_2 (getLeftEyeBrow (detection o)) 2%nat) as [bl ->]; [lia |].
  destruct (lookup_lt_is_Some_2 (getRightEyeBrow (detection o)) 2%nat) as [br ->]; [lia |].
  destruct (lookup_lt_is_Some_2 (getMouth (detection o)) 3%nat) as [m3 H3]; [lia |].
  destruct (lookup_lt_is_Some_2 (getMouth (detection o)) 9%nat) as [m9 H9]; [lia |].
  rewrite (calculateMouthOpen_points s _ m3 m9 H3 H9).
  cbn [lookup list_lookup get_x get_y].
  completes_tac.
Qed.

(** X8: a tick over faces whose mouth has at least ten points and whose
    eyebrows have at least three completes without throwing, whatever the
    settings, the eyes and the store are. *)
Theorem detectFaces_completes (s : settings) (ds : list sample) (st : store) :
  Forall (fun o => sized (detection o)) ds ->
  (detectFaces s ds st).2 = Ok tt.
Proof.
  intros Hall. apply completes_unit. unfold detectFaces.
  apply completes_bind; [apply completes_call | intros _].
  apply completes_bind; [apply completes_when, completes_call | intros _].
  apply completes_forEach.
  eapply Forall_impl; [exact Hall |]. intros o Ho. apply detectFace_completes, Ho.
Qed.

Lemma sized_faceWith (raise gap : Z) : sized (faceWith raise gap).
Proof. repeat split; cbn; lia. Qed.

Lemma detectFaces_completes_witness :
  Forall (fun o => sized (detection o)) [raisedSample 5000; brokenSample 6000] /\
  (detectFaces defaultSettings [raisedSample 5000; brokenSample 6000] initial_store).2 = Ok tt.
Proof.
  assert (H : Forall (fun o => sized (detection o)) [raisedSample 5000; brokenSample 6000])
    by (repeat constructor; cbn; lia).
  split; [exact H |].
  exact (detectFaces_completes defaultSettings _ initial_store H).
Defined.

Lemma throws_eval {A} (e : exn) : throws e (eval (Throw e : result A)).
Proof. intros st. reflexivity. Qed.

Lemma throws_bind_l {A B} (e : exn) (m : M A) (k : A -> M B) :
  throws e m -> throws e (bind m k).
Proof. intros Hm st. rewrite bind_snd, Hm. reflexivity. Qed.

Lemma throws_bind_r {A B} (e : exn) (m : M A) (k : A -> M B) :
  completes m -> (forall a, throws e (k a)) -> throws e (bind m k).
Proof.
  intros Hm Hk st. rewrite bind_snd.
  destruct (Hm st) as [a Ha]. rewrite Ha. apply Hk.
Qed.

Lemma keeps_bind_throw {A B X} (f : store -> X) (e : exn) (k : A -> M B) :
  keeps f (bind (eval (Throw e)) k).
Proof. intros st. reflexivity. Qed.

Lemma keeps_signals_call (e : event) : keeps signalsOf (call e).
Proof. intros st. reflexivity. Qed.

Lemma keeps_signals_set_lastResetTime (t : Z) : keeps signalsOf (set_lastResetTime t).
Proof. intros st. reflexivity. Qed.

Ltac keeps_signals :=
  repeat first
    [ apply keeps_ret | apply keeps_eval | apply keeps_read
    | apply keeps_bind_throw
    | apply keeps_signals_call | apply keeps_signals_set_lastResetTime
    | apply keeps_when
    | apply keeps_bind; [ | intros ? ] ].

(** X9: for a face with well-formed eyes and fewer than ten mouth points, with
    the graphics on: the tick throws a TypeError; [leftEyebrowRaise] has
    been updated by then, and [mouthOpen] keeps its value. *)
Theorem detectFace_short_mouth (s : settings) (o : sample) (st : store) :
  wellFormed (detection o) = true ->
  showGraphics s = true ->
  (length (getMouth (detection o)) < 10)%nat ->
  (detectFace s o st).2 = Throw TypeError /\
  leftEyebrowRaise (detectFace s o st).1 =
    calculateEyebrowRaise s (getLeftEyeBrow (detection o)) (getLeftEye (detection o)) /\
  mouthOpen (detectFace s o st).1 = mouthOpen st.
Proof.
  intros Hwf Hsg Hlen. unfold detectFace.
  change ((length (getLeftEye (detection o)) =? 6)%nat &&
          (length (getRightEye (detection o)) =? 6)%nat)
    with (wellFormed (detection o)).
  rewrite Hwf, bind_set_leftEyebrowRaise, !bind_read, Hsg.
  rewrite (calculateMouthOpen_short s _ Hlen).
  cbn [leftEyebrowRaise lastResetTime when].
  destruct (wellFormed_six _ Hwf) as [Hl Hr].
  destruct (six_points _ Hl) as (l0 & l1 & l2 & l3 & l4 & l5 & ->).
  destruct (six_points _ Hr) as (r0 & r1 & r2 & r3 & r4 & r5 & ->).
  cbn [lookup list_lookup get_x get_y].
  split.
  - lazymatch goal with
    | |- (?T ?s1).2 = _ => enough (H : throws TypeError T) by exact (H s1)
    end.
    apply throws_bind_r; [completes_tac | intros _].
    apply throws_bind_r; [completes_tac | intros _].
    apply throws_bind_r; [completes_tac | intros _].
    apply throws_bind_l, throws_eval.
  - lazymatch goal with
    | |- leftEyebrowRaise (?T ?s1).1 = _ /\ mouthOpen (?T ?s1).1 = _ =>
        assert (H : keeps signalsOf T) by keeps_signals;
        specialize (H s1)
    end.
    unfold signalsOf in H. cbn [leftEyebrowRaise mouthOpen] in H.
    injection H as H1 H2. split; assumption.
Qed.

Lemma detectFace_short_mouth_witness :
  wellFormed (detection (shortMouthSample 5000)) = true /\
  showGraphics defaultSettings = true /\
  (length (getMouth (detection (shortMouthSample 5000))) < 10)%nat /\
  (detectFace defaultSettings (shortMouthSample 5000) initial_store).2 = Throw TypeError /\
  leftEyebrowRaise (detectFace defaultSettings (shortMouthSample 5000) initial_store).1 =
    of_Z 1 /\
  mouthOpen (detectFace defaultSettings (shortMouthSample 5000) initial_store).1 =
    mouthOpen initial_store.
Proof.
  assert (Hlen : (length (getMouth (detection (shortMouthSample 5000))) < 10)%nat)
    by (cbn; lia).
  split; [reflexivity |]. split; [reflexivity |]. split; [exact Hlen |].
  destruct (detectFace_short_mouth defaultSettings (shortMouthSample 5000) initial_store
              eq_refl eq_refl Hlen) as (Ht & Hb & Hm).
  split; [exact Ht |]. split; [| exact Hm].
  rewrite Hb. vm_compute. reflexivity.
Defined.

(** How the loop composes. *)
Lemma forEach_app {A} (body : A -> M unit) (l l' : list A) (st : store) :
  forEach body (l ++ l') st = bind (forEach body l) (fun _ => forEach body l') st.
Proof.
  revert st. induction l as [ | a l IH]; intros st; [reflexivity |].
  cbn [app forEach]. unfold bind.
  destruct (body a st) as [st1 [[] | e]]; [| reflexivity].
  rewrite IH. reflexivity.
Qed.

(** The store in which the loop of a tick starts. *)
Lemma detectFaces_unfold (s : settings) (ds : list sample) (st : store) :
  detectFaces s ds st =
  forEach (detectFace s) ds
    (when (showLandmarks s) (call DrawOverlays) (call ClearRect st).1).1.
Proof.
  unfold detectFaces. rewrite bind_call.
  destruct (showLandmarks s); cbn [when]; [rewrite bind_call |]; reflexivity.
Qed.

(** X10: once the tick has thrown on a face, the faces that follow are not
    handled: the store and the outcome are those of the tick without them. *)
Theorem detectFaces_stops_at_throw (s : settings) (ds ds' : list sample)
        (st : store) (e : exn) :
  (detectFaces s ds st).2 = Throw e ->
  detectFaces s (ds ++ ds') st = detectFaces s ds st.
Proof.
  rewrite !detectFaces_unfold. intros H. rewrite forEach_app. unfold bind.
  destruct (forEach (detectFace s) ds _) as [st1 [[] | e1]];
    [discriminate H | reflexivity].
Qed.

Lemma detectFaces_stops_at_throw_witness :
  (detectFaces defaultSettings [shortMouthSample 5000] initial_store).2 = Throw TypeError /\
  detectFaces defaultSettings ([shortMouthSample 5000] ++ [raisedSample 9000]) initial_store =
  detectFaces defaultSettings [shortMouthSample 5000] initial_store.
Proof.
  assert (H : (detectFaces defaultSettings [shortMouthSample 5000] initial_store).2 =
              Throw TypeError) by (vm_compute; reflexivity).
  split; [exact H |].
  exact (detectFaces_stops_at_throw defaultSettings [shortMouthSample 5000]
           [raisedSample 9000] initial_store TypeError H).
Defined.

(** ** What a tick draws *)

Lemma calculateEyebrowRaise_signal (s : settings) (eyebrow eye : list point) :
  signal (calculateEyebrowRaise s eyebrow eye).
Proof.
  unfold calculateEyebrowRaise. rewrite max_min_clamp. apply clamp01_nan_or_range.
Qed.

Lemma calculateMouthOpen_signal (s : settings) (mouth : list point) (v : number) :
  calculateMouthOpen s mouth = Ok v -> signal v.
Proof.
  unfold calculateMouthOpen. intros Hv.
  destruct (euclideanDistance (mouth !! 3%nat) (mouth !! 9%nat)) as [d | e];
    [| discriminate Hv].
  apply Ok_inj in Hv. subst v. rewrite max_min_clamp. apply clamp01_nan_or_range.
Qed.













(** ** The exported signals over a run *)

Lemma preserves_keeps_signals {A} (m : M A) :
  keeps signalsOf m -> preserves signalsOk m.
Proof.
  intros Hm st H. specialize (Hm st). unfold signalsOf in Hm.
  injection Hm as Hb Hmo. unfold signalsOk, getBrows, getMouthOpen in *.
  rewrite Hb, Hmo. exact H.
Qed.

Lemma preserves_bind_eval {A B} (P : store -> Prop) (r : result A) (k : A -> M B) :
  (forall a, r = Ok a -> preserves P (k a)) -> preserves P (bind (eval r) k).
Proof.
  intros Hk st H. destruct r as [a | e]; [| exact H].
  exact (Hk a eq_refl st H).
Qed.

Lemma detectFace_signalsOk (s : settings) (o : sample) :
  preserves signalsOk (detectFace s o).
Proof.
  unfold detectFace.
  destruct ((length (getLeftEye (detection o)) =? 6)%nat &&
            (length (getRightEye (detection o)) =? 6)%nat);
    [| apply preserves_keeps_signals; keeps_signals].
  apply preserves_bind; [| intros _].
  { intros st [_ Hm]. split; [apply calculateEyebrowRaise_signal | exact Hm]. }
  apply preserves_bind; [apply preserves_keeps_signals; keeps_signals | intros raise].
  apply preserves_bind; [apply preserves_keeps_signals; keeps_signals | intros last].
  apply preserves_bind; [apply preserves_keeps_signals; keeps_signals | intros _].
  apply preserves_when.
  apply preserves_bind; [apply preserves_keeps_signals; keeps_signals | intros _].
  apply preserves_bind; [apply preserves_keeps_signals; keeps_signals | intros _].
  apply preserves_bind_eval. intros m Hm.
  apply preserves_bind; [| intros _; apply preserves_keeps_signals; keeps_signals].
  intros st [Hb _]. split; [exact Hb | exact (calculateMouthOpen_signal s _ m Hm)].
Qed.

Lemma detectFaces_signalsOk (s : settings) (ds : list sample) :
  preserves signalsOk (detectFaces s ds).
Proof.
  unfold detectFaces.
  apply preserves_bind; [apply preserves_keeps_signals; keeps_signals | intros _].
  apply preserves_bind; [apply preserves_keeps_signals; keeps_signals | intros _].
  apply preserves_forEach. intros o. apply detectFace_signalsOk.
Qed.

(** A property of the module variables that every tick maintains holds
    after every run that starts in it. *)
Lemma run_vars_invariant (P : store -> Prop) (l : list action) (b b' : browser) :
  (forall s ds, preserves P (detectFaces s ds)) ->
  P (vars b) -> run b l = Some b' -> P (vars b').
Proof.
  intros Htick. revert b. induction l as [ | a l IH]; intros b Hb Hrun; cbn [run] in Hrun.
  - injection Hrun as <-. exact Hb.
  - destruct (step b a) as [b1 | ] eqn:Hstep; [| discriminate Hrun].
    apply (IH b1); [| exact Hrun].
    destruct a as [ | s | id | ds]; cbn [step] in Hstep.
    + injection Hstep as <-. exact Hb.
    + injection Hstep as <-. exact Hb.
    + destruct (bool_decide (id ∈ active b)); [| discriminate Hstep].
      injection Hstep as <-. exact Hb.
    + destruct (pending b) as [ | n]; [discriminate Hstep |].
      injection Hstep as <-. cbn [vars]. apply Htick, Hb.
Qed.

(** X12: at every moment of every run, whatever the settings, the faces and the
    exceptions on the way, [getBrows()] and [getMouthOpen()] each return NaN
    or a number of [0,1]. *)
Theorem exported_signals_in_range (s : settings) (l : list action) (b : browser) :
  run (start s) l = Some b ->
  signal (getBrows (vars b)) /\ signal (getMouthOpen (vars b)).
Proof.
  apply (run_vars_invariant signalsOk).
  - intros s' ds. apply detectFaces_signalsOk.
  - split; right; split; reflexivity.
Qed.

Lemma exported_signals_in_range_witness :
  exists b : browser,
    run (start defaultSettings) sampleRun = Some b /\
    getBrows (vars b) = of_Z 1 /\
    signal (getBrows (vars b)) /\ signal (getMouthOpen (vars b)).
Proof.
  eexists. split; [vm_compute; reflexivity |]. split; [vm_compute; reflexivity |].
  eapply (exported_signals_in_range defaultSettings sampleRun).
  vm_compute. reflexivity.
Defined.

(** ** The reset clock over a run *)

Lemma detectFaces_view_invariant (Q : Z * list Z -> Prop) (s : settings) (ds : list sample) :
  (forall t rs c, Q (t, rs) -> 3000 < c - t -> Q (c, rs ++ [c])) ->
  preserves (fun st => Q (debounceView st)) (detectFaces s ds).
Proof.
  intros Hstep. unfold detectFaces.
  apply preserves_bind;
    [apply (keeps_preserves debounceView Q); keeps_view | intros _].
  apply preserves_bind;
    [apply (keeps_preserves debounceView Q); keeps_view | intros _].
  apply preserves_forEach. intros o st H. rewrite detectFace_view.
  destruct (wellFormed (detection o) && resetCondition s o st) eqn:Hc; [| exact H].
  apply andb_true_iff in Hc as [_ Hc]. apply resetCondition_elapsed in Hc.
  apply (Hstep (lastResetTime st) (resets (calls st)) (clock o)); assumption.
Qed.

(** X13: in every run [lastResetTime] is the time of the most recent call of
    [resetGame], and 0 as long as there was none. *)
Theorem lastResetTime_is_last_reset (s : settings) (l : list action) (b : browser) :
  run (start s) l = Some b ->
  lastResetTime (vars b) = lastReset (calls (vars b)).
Proof.
  apply (run_vars_invariant (fun st => lastResetTime st = lastReset (calls st))).
  - intros s' ds.
    apply (detectFaces_view_invariant (fun v => v.1 = default 0 (last v.2))).
    intros t rs c _ _. cbn [fst snd]. rewrite last_snoc. reflexivity.
  - reflexivity.
Qed.

Lemma lastResetTime_is_last_reset_witness :
  exists b : browser,
    run (start defaultSettings) sampleRun = Some b /\
    lastResetTime (vars b) = 9000 /\
    lastResetTime (vars b) = lastReset (calls (vars b)).
Proof.
  eexists. split; [vm_compute; reflexivity |]. split; [vm_compute; reflexivity |].
  eapply (lastResetTime_is_last_reset defaultSettings sampleRun).
  vm_compute. reflexivity.
Defined.

(** X14: [lastResetTime] never goes back: over any run, from any state, it
    stays or grows. *)
Theorem lastResetTime_monotone (l : list action) (b b' : browser) :
  run b l = Some b' -> lastResetTime (vars b) <= lastResetTime (vars b').
Proof.
  apply (run_vars_invariant (fun st => lastResetTime (vars b) <= lastResetTime st)).
  - intros s ds.
    apply (detectFaces_view_invariant (fun v => lastResetTime (vars b) <= v.1)).
    intros t rs c Ht Hc. cbn [fst] in *. lia.
  - lia.
Qed.

Lemma lastResetTime_monotone_witness :
  exists b : browser,
    run (start defaultSettings) sampleRun = Some b /\
    lastResetTime (vars (start defaultSettings)) <= lastResetTime (vars b).
Proof.
  eexists. split; [vm_compute; reflexivity |].
  eapply (lastResetTime_monotone sampleRun).
  vm_compute. reflexivity.
Defined.

(** ** Which interval fires *)

(** X15: an interval that fires is the one recorded in [intervalId]: an
    interval replaced by [onPlay] never fires again, and nothing fires
    before the first [onPlay]. *)
Theorem only_current_interval_fires (s : settings) (l : list action)
        (id : nat) (b b' : browser) :
  run (start s) l = Some b ->
  step b (Fire id) = Some b' ->
  intervalId b = Some id.
Proof.
  intros Hrun Hstep.
  assert (Hs : singleInterval b)
    by (apply (run_singleInterval l (start s) b); [reflexivity | exact Hrun]).
  cbn [step] in Hstep.
  destruct (bool_decide (id ∈ active b)) eqn:Hin; [| discriminate Hstep].
  apply bool_decide_eq_true in Hin. rewrite Hs in Hin.
  destruct (intervalId b) as [i | ]; [| inversion Hin].
  apply list_elem_of_singleton in Hin. subst i. reflexivity.
Qed.

Lemma only_current_interval_fires_witness :
  exists b b' : browser,
    run (start defaultSettings) [Play; Fire 0%nat; GuiChange quietSettings] = Some b /\
    step b (Fire 1%nat) = Some b' /\
    step b (Fire 0%nat) = None /\
    intervalId b = Some 1%nat.
Proof.
  eexists. eexists. split; [reflexivity |]. split; [reflexivity |].
  split; [reflexivity |].
  eapply (only_current_interval_fires defaultSettings
            [Play; Fire 0%nat; GuiChange quietSettings] 1%nat); reflexivity.
Defined.

(** ** Loading: every stored item *)

Lemma union_defaults_complete (o : object) : complete (o ∪ object_of defaultSettings).
Proof.
  intros k Hk. rewrite lookup_union.
  destruct (object_of_keys defaultSettings k Hk) as [d Hd]. rewrite Hd.
  destruct (o !! k); eexists; reflexivity.
Qed.

(** X16: [loadSettings] treats the empty string like a missing item; it throws
    exactly on a string that is not JSON (a SyntaxError) and on a JSON
    scalar such as [null] or [5] (a TypeError). *)
Theorem loadSettings_throws (item : option text) (e : exn) :
  loadSettings (Some EmptyText) = loadSettings None /\
  (loadSettings item = Throw e <->
   (item = Some Malformed /\ e = SyntaxError) \/
   (exists v, item = Some (Json (DScalar v)) /\ e = TypeError)).
Proof.
  split; [reflexivity |]. split.
  - intros H. destruct item as [[ | | [v | o]] | ].
    + change (loadSettings None = Throw e) in H.
      rewrite loadSettings_absent in H. discriminate H.
    + left. split; [reflexivity |]. cbn in H. congruence.
    + right. exists v. split; [reflexivity |]. cbn in H. congruence.
    + rewrite loadSettings_record in H. discriminate H.
    + rewrite loadSettings_absent in H. discriminate H.
  - intros [[-> ->] | (v & -> & ->)]; reflexivity.
Qed.

(** X17: whatever is stored, a record returned by [loadSettings] has every key
    of [defaultSettings]. *)
Theorem loadSettings_result_complete (item : option text) (r : object) :
  loadSettings item = Ok r -> complete r.
Proof.
  intros H. destruct item as [[ | | [v | o]] | ].
  - change (loadSettings None = Ok r) in H. rewrite loadSettings_absent in H.
    apply Ok_inj in H. subst r. intros k Hk. apply object_of_keys, Hk.
  - discriminate H.
  - discriminate H.
  - rewrite loadSettings_record in H. apply Ok_inj in H. subst r.
    apply union_defaults_complete.
  - rewrite loadSettings_absent in H.
    apply Ok_inj in H. subst r. intros k Hk. apply object_of_keys, Hk.
Qed.

Lemma loadSettings_result_complete_witness :
  loadSettings (stored (Some partialSettings)) =
    Ok (partialSettings ∪ object_of defaultSettings) /\
  complete (partialSettings ∪ object_of defaultSettings).
Proof.
  assert (H : loadSettings (stored (Some partialSettings)) =
              Ok (partialSettings ∪ object_of defaultSettings))
    by apply loadSettings_record.
  split; [exact H |].
  exact (loadSettings_result_complete _ _ H).
Defined.

(** ** Saving and loading twice *)

Lemma serialize_idemp (v : jsval) : serialize (serialize v) = serialize v.
Proof.
  destruct v as [ | b | n | str]; try reflexivity.
  destruct n as [sg | sg | | sg m e]; reflexivity.
Qed.

Lemma serialize_is_representable (v : jsval) : representable (serialize v) = true.
Proof.
  destruct v as [ | b | n | str]; try reflexivity.
  destruct n as [sg | sg | | sg m e]; reflexivity.
Qed.

Lemma serialize_defaults :
  serialize <$> object_of defaultSettings = object_of defaultSettings.
Proof.
  apply map_eq. intros k. rewrite lookup_fmap.
  destruct (object_of defaultSettings !! k) as [v | ] eqn:Hk;
    cbn [fmap option_fmap option_map]; [| reflexivity].
  rewrite (serialize_representable v (defaultSettings_representable k v Hk)).
  reflexivity.
Qed.

(** X18: whatever record is saved, the record that [loadSettings] then returns
    holds only values that JSON represents exactly, and saving and loading
    that record again returns it unchanged. *)
Theorem save_load_settles (o r : object) :
  loadSettings (saveSettings o) = Ok r ->
  (forall k v, r !! k = Some v -> representable v = true) /\
  loadSettings (saveSettings r) = Ok r.
Proof.
  rewrite load_save. intros H. apply Ok_inj in H. subst r. split.
  - intros k v. rewrite lookup_union, lookup_fmap.
    destruct (o !! k) as [w | ] eqn:Hk; cbn [fmap option_fmap option_map].
    + destruct (object_of defaultSettings !! k); intros [= <-];
        apply serialize_is_representable.
    + destruct (object_of defaultSettings !! k) as [d | ] eqn:Hd; intros [= <-].
      exact (defaultSettings_representable k d Hd).
  - rewrite load_save. f_equal.
    rewrite map_fmap_union, serialize_defaults, <- map_fmap_compose.
    rewrite <- (assoc_L (∪)), (idemp (∪) (object_of defaultSettings)).
    f_equal. apply map_fmap_ext. intros k v _. apply serialize_idemp.
Qed.

Lemma save_load_settles_witness :
  exists r : object,
    loadSettings (saveSettings overflowSettings) = Ok r /\
    r !! "eyebrowThresholdCeil"%string = Some VNull /\
    loadSettings (saveSettings r) = Ok r.
Proof.
  eexists. split; [apply load_save |].
  split; [vm_compute; reflexivity |].
  apply (save_load_settles overflowSettings). apply load_save.
Defined.

(** ** When the reset fires *)

(** X19: for a face with well-formed eyes, when the game is not running, the
    left eyebrow signal exceeds 0.7 and more than 3000 ms have passed since
    [lastResetTime], [resetGame] is called exactly once while the face is
    handled and [lastResetTime] becomes the time read, also when the drawing
    code throws afterwards. *)
Theorem reset_fires (s : settings) (o : sample) (st : store) :
  wellFormed (detection o) = true ->
  gameRunning o = false ->
  gt (calculateEyebrowRaise s (getLeftEyeBrow (detection o))
                              (getLeftEye (detection o))) lit_0_7 = true ->
  3000 < clock o - lastResetTime st ->
  resets (emitted (detectFace s o) st) = [clock o] /\
  ResetGame (clock o) ∈ emitted (detectFace s o) st /\
  lastResetTime (detectFace s o st).1 = clock o.
Proof.
  intros Hwf Hrun Hgt Hel.
  assert (Hc : wellFormed (detection o) && resetCondition s o st = true).
  { unfold resetCondition. rewrite Hwf, Hrun, Hgt. cbn [negb andb].
    apply Z.ltb_lt, Hel. }
  assert (Hr : resets (emitted (detectFace s o) st) = [clock o])
    by (rewrite detectFace_resets, Hc; reflexivity).
  split; [exact Hr |]. split.
  - apply elem_of_resets. rewrite Hr. apply list_elem_of_here.
  - pose proof (detectFace_view s o st) as Hv. rewrite Hc in Hv.
    unfold debounceView in Hv. injection Hv as Hv _. exact Hv.
Qed.

Lemma reset_fires_witness :
  wellFormed (detection (shortMouthSample 5000)) = true /\
  gameRunning (shortMouthSample 5000) = false /\
  3000 < clock (shortMouthSample 5000) - lastResetTime initial_store /\
  (detectFace defaultSettings (shortMouthSample 5000) initial_store).2 = Throw TypeError /\
  resets (emitted (detectFace defaultSettings (shortMouthSample 5000)) initial_store) = [5000] /\
  lastResetTime (detectFace defaultSettings (shortMouthSample 5000) initial_store).1 = 5000.
Proof.
  split; [reflexivity |]. split; [reflexivity |]. split; [reflexivity |].
  split; [vm_compute; reflexivity |].
  destruct (reset_fires defaultSettings (shortMouthSample 5000) initial_store)
    as (Hr & _ & Hl); try reflexivity.
  split; [exact Hr | exact Hl].
Defined.

(** ** At most one reset per tick *)

Lemma forEach_view_blocked (s : settings) (ds : list sample) (st : store) :
  Forall (fun o => clock o - lastResetTime st <= 3000) ds ->
  debounceView (forEach (detectFace s) ds st).1 = debounceView st.
Proof.
  revert st. induction ds as [ | o ds IH]; intros st Hall; [reflexivity |].
  inversion Hall as [ | ? ? Ho Hds]; subst.
  assert (H1 : debounceView (detectFace s o st).1 = debounceView st).
  { rewrite detectFace_view. unfold resetCondition.
    replace (3000 <? clock o - lastResetTime st) with false
      by (symmetry; apply Z.ltb_ge; exact Ho).
    rewrite !andb_false_r. reflexivity. }
  cbn [forEach]. rewrite bind_fst.
  destruct ((detectFace s o st).2); [| exact H1].
  rewrite IH; [exact H1 |].
  unfold debounceView in H1. injection H1 as Hl _. rewrite Hl. exact Hds.
Qed.

Lemma forEach_view_once (s : settings) (ds : list sample) (st : store) :
  (forall o o', o ∈ ds -> o' ∈ ds -> clock o' - clock o <= 3000) ->
  debounceView (forEach (detectFace s) ds st).1 = debounceView st \/
  exists c, debounceView (forEach (detectFace s) ds st).1 = (c, resets (calls st) ++ [c]).
Proof.
  revert st. induction ds as [ | o ds IH]; intros st Hnear; [left; reflexivity |].
  pose proof (detectFace_view s o st) as H1.
  assert (Hds : forall o1 o2, o1 ∈ ds -> o2 ∈ ds -> clock o2 - clock o1 <= 3000)
    by (intros o1 o2 H1' H2'; apply Hnear; apply list_elem_of_further; assumption).
  cbn [forEach]. rewrite bind_fst.
  destruct (wellFormed (detection o) && resetCondition s o st).
  - right. exists (clock o).
    destruct ((detectFace s o st).2); [| exact H1].
    rewrite forEach_view_blocked; [exact H1 |].
    unfold debounceView in H1. injection H1 as Hl _. rewrite Hl.
    apply Forall_forall. intros o' Ho'.
    apply Hnear; [apply list_elem_of_here | apply list_elem_of_further, Ho'].
  - destruct ((detectFace s o st).2); [| left; exact H1].
    unfold debounceView in H1. injection H1 as Hl Hr.
    destruct (IH (detectFace s o st).1 Hds) as [H | [c H]].
    + left. rewrite H. unfold debounceView. rewrite Hl, Hr. reflexivity.
    + right. exists c. rewrite H, Hr. reflexivity.
Qed.

(** X20: when the clock readings taken during one tick are within 3000 ms of
    each other, the tick calls [resetGame] at most once, however many faces
    raise their eyebrows. *)
Theorem one_reset_per_tick (s : settings) (ds : list sample) (st : store) :
  (forall o o', o ∈ ds -> o' ∈ ds -> clock o' - clock o <= 3000) ->
  (length (resets (emitted (detectFaces s ds) st)) <= 1)%nat.
Proof.
  intros Hnear.
  destruct (detectFaces_grows s ds st) as [new Hnew].
  rewrite (emitted_spec _ _ _ Hnew).
  assert (Hv : resets (calls (detectFaces s ds st).1) = resets (calls st) \/
               exists c, resets (calls (detectFaces s ds st).1) = resets (calls st) ++ [c]).
  { rewrite detectFaces_unfold.
    set (st0 := (when (showLandmarks s) (call DrawOverlays) (call ClearRect st).1).1).
    assert (H0 : resets (calls st0) = resets (calls st)).
    { unfold st0. destruct (showLandmarks s); cbn; rewrite !resets_app;
        cbn; rewrite ?app_nil_r; reflexivity. }
    destruct (forEach_view_once s ds st0 Hnear) as [H | [c H]];
      unfold debounceView in H; injection H as _ H; rewrite H, H0.
    - left. reflexivity.
    - right. exists c. reflexivity. }
  rewrite Hnew, resets_app in Hv. destruct Hv as [Hv | [c Hv]].
  - rewrite <- (app_nil_r (resets (calls st))) in Hv at 2.
    apply app_inv_head in Hv. rewrite Hv. cbn. lia.
  - apply app_inv_head in Hv. rewrite Hv. cbn. lia.
Qed.

Lemma one_reset_per_tick_witness :
  (forall o o', o ∈ [raisedSample 5000; raisedSample 5001] ->
                o' ∈ [raisedSample 5000; raisedSample 5001] ->
                clock o' - clock o <= 3000) /\
  resets (emitted (detectFaces defaultSettings [raisedSample 5000; raisedSample 5001])
                  initial_store) = [5000] /\
  (length (resets (emitted (detectFaces defaultSettings
                              [raisedSample 5000; raisedSample 5001]) initial_store))
   <= 1)%nat.
Proof.
  assert (H : forall o o', o ∈ [raisedSample 5000; raisedSample 5001] ->
                           o' ∈ [raisedSample 5000; raisedSample 5001] ->
                           clock o' - clock o <= 3000).
  { intros o o' Ho Ho'.
    apply elem_of_cons in Ho as [-> | Ho];
      [| apply list_elem_of_singleton in Ho as ->];
      (apply elem_of_cons in Ho' as [-> | Ho'];
       [| apply list_elem_of_singleton in Ho' as ->]); cbn; lia. }
  split; [exact H |]. split; [vm_compute; reflexivity |].
  exact (one_reset_per_tick defaultSettings _ initial_store H).
Defined.

(** ** The settings panel *)

Lemma lowerChar_c (c : Ascii.ascii) :
  lowerChar c = Ascii.ascii_of_nat 99 <->
  c = Ascii.ascii_of_nat 99 \/ c = Ascii.ascii_of_nat 67.
Proof.
  split.
  - destruct c as [[] [] [] [] [] [] [] []]; vm_compute; intros H;
      first [discriminate H | left; reflexivity | right; reflexivity].
  - intros [-> | ->]; reflexivity.
Qed.

Lemma toLowerCase_c (key : string) :
  toLowerCase key = "c"%string <-> key = "c"%string \/ key = "C"%string.
Proof.
  split.
  - destruct key as [ | c [ | c' key]]; cbn [toLowerCase]; intros H;
      try discriminate H.
    injection H as H. apply lowerChar_c in H as [-> | ->]; [left | right]; reflexivity.
  - intros [-> | ->]; reflexivity.
Qed.

(** X21: the [keydown] listener toggles the panel exactly on the keys [c] and
    [C]: then [guiVisible] is negated, the panel is shown or hidden
    accordingly and the new visibility is stored; any other key leaves the
    panel and the stored item as they are. *)
Theorem keydown_toggles (key : string) (p : panel) :
  (key = "c"%string \/ key = "C"%string ->
   guiVisible (keydown key p) = negb (guiVisible p) /\
   shown (keydown key p) = guiVisible (keydown key p) /\
   guiOpenState (keydown key p) =
     Some (if guiVisible (keydown key p) then "true" else "false")%string) /\
  (~ (key = "c"%string \/ key = "C"%string) -> keydown key p = p).
Proof.
  unfold keydown. split.
  - intros Hk. apply toLowerCase_c in Hk. rewrite Hk. cbn. auto.
  - intros Hk. destruct (String.eqb_spec (toLowerCase key) "c") as [H | H];
      [| reflexivity].
    apply toLowerCase_c in H. contradiction.
Qed.

Lemma keydown_toggles_witness :
  ("C"%string = "c"%string \/ "C"%string = "C"%string) /\
  guiVisible (keydown "C" (initGUI None)) = negb (guiVisible (initGUI None)) /\
  keydown "Enter" (initGUI None) = initGUI None.
Proof.
  assert (H : "C"%string = "c"%string \/ "C"%string = "C"%string) by (right; reflexivity).
  split; [exact H |].
  destruct (keydown_toggles "C" (initGUI None)) as [Ht _].
  destruct (Ht H) as (Hv & _ & _).
  split; [exact Hv | reflexivity].
Defined.


